(** * gen_ir.py: the code generator driver of libFirm

    A shallow embedding of [scripts/gen_ir.py].  The driver reads a parsed
    command line, extends the search paths, executes the specification
    unit and the extra units, builds a jinja2 environment from the
    [jinjautil] registry and the [-D] definitions, renders one template
    and writes the result to standard output.

    Python dictionaries are objects in a store and are named by
    reference, so that the difference between the registry's dictionaries
    and the environment's own dictionaries is part of the model. *)

From Stdlib Require Import Ascii.
From stdpp Require Import gmap strings list pretty.

Open Scope string_scope.
Open Scope list_scope.

(** ** Python values *)

(** The values that can sit in the dictionaries the driver touches: text,
    integers, and callables.  A callable is used as a jinja2 filter: it
    receives the text of its argument and returns text or raises. *)
Inductive pyval :=
  | PStr (s : string)
  | PInt (n : Z)
  | PFun (f : string → option string).

(** [str(v)], as the template engine prints a value.  The address part of
    the text of a function object is not modelled. *)
Definition to_text (v : pyval) : string :=
  match v with
  | PStr s => s
  | PInt n => pretty n
  | PFun _ => "<function>"
  end.

(** ** The store *)

Abbreviation loc := positive.
Abbreviation dict := (gmap string pyval).

(** ** The registry module [jinjautil] *)

Module jinjautil.

(** The two dictionaries of the registry module, [jinjautil.exports] and
    [jinjautil.filters], live at fixed references for the whole run. *)
Definition exports : loc := 1%positive.
Definition filters : loc := 2%positive.

(** Modelled from the spec: the class [SimpleLoader] of [jinjautil.py],
    which is not among the sources at hand.  A loader owns an ordered
    list of directories; resolution tests [directory/templateName] for
    each directory in order and returns the contents of the first match,
    together with the path that matched. *)
Record SimpleLoader := { includedirs : list string }.

Definition join (directory name : string) : string :=
  directory +:+ "/" +:+ name.

Fixpoint resolve (files : gmap string string) (dirs : list string) (name : string)
  : option (string * string) :=
  match dirs with
  | [] => None
  | d :: dirs' =>
      match files !! join d name with
      | Some contents => Some (contents, join d name)
      | None => resolve files dirs' name
      end
  end.

Definition get_source (files : gmap string string) (self : SimpleLoader) (name : string)
  : option (string * string) :=
  resolve files (includedirs self) name.

End jinjautil.

(** A statement of a specification or extra unit, as far as the driver
    can observe it: a top-level binding of the unit's own namespace, a
    write to one of the two registry dictionaries, or a raise. *)
Inductive stmt :=
  | SAssign (name : string) (v : pyval)
  | SExport (name : string) (v : pyval)
  | SExportFilter (name : string) (v : pyval)
  | SRaise.

(** What the process starts from: the interpreter's module search path,
    the registry as the imports of [filters] and [jinjautil] left it, the
    search path a new [SimpleLoader] starts with, jinja2's default
    namespaces, and the files on disk (Python files by their body,
    template files by their text). *)
Record Process := {
  proc_sys_path : list string;
  proc_exports : dict;
  proc_filters : dict;
  proc_loader_dirs : list string;
  DEFAULT_NAMESPACE : dict;
  DEFAULT_FILTERS : dict;
  py_files : gmap string (list stmt);
  text_files : gmap string string
}.

(** The mutable state of the run. [loaded] records, in execution order,
    every unit that was executed, with the module name it was given. *)
Record State := {
  heap : gmap loc dict;
  sys_path : list string;
  loaded : list (string * string);
  stdout : string
}.

Definition init_state (p : Process) : State :=
  {| heap := <[jinjautil.filters := proc_filters p]>
             (<[jinjautil.exports := proc_exports p]> ∅);
     sys_path := proc_sys_path p;
     loaded := [];
     stdout := "" |}.

Definition set_heap (h : gmap loc dict) (st : State) : State :=
  {| heap := h; sys_path := sys_path st; loaded := loaded st; stdout := stdout st |}.

(** ** Exceptions and the driver monad *)

Inductive exn :=
  | FileNotFoundError (path : string)
  | UnitRaised (module_name : string)
  | TemplateNotFound (name : string)
  | TemplateSyntaxError
  | TemplateAssertionError (filter_name : string)
  | TypeError (filter_name : string)
  | FilterRaised (filter_name : string).

Inductive result (A : Type) :=
  | Ok (a : A)
  | Raise (e : exn).
Arguments Ok {A} a.
Arguments Raise {A} e.

(** A computation reads and writes the state and either returns or
    raises; the state at the raise is kept, as effects before a Python
    exception are. *)
Definition M (A : Type) : Type := State → result A * State.

Definition ret {A} (a : A) : M A := λ st, (Ok a, st).
Definition raise {A} (e : exn) : M A := λ st, (Raise e, st).
Definition bind {A B} (m : M A) (k : A → M B) : M B :=
  λ st, match m st with
        | (Ok a, st') => k a st'
        | (Raise e, st') => (Raise e, st')
        end.

Declare Scope py_scope.
Delimit Scope py_scope with py.
Notation "x <- m ;; k" := (bind m (λ x, k))
  (at level 100, m at next level, right associativity) : py_scope.
Notation "m ;;; k" := (bind m (λ _, k))
  (at level 100, right associativity) : py_scope.
Open Scope py_scope.

Definition get_state : M State := λ st, (Ok st, st).
Definition modify (f : State → State) : M unit := λ st, (Ok tt, f st).

(** [for x in l: body(x)] *)
Fixpoint for_each {A} (l : list A) (body : A → M unit) : M unit :=
  match l with
  | [] => ret tt
  | x :: l' => body x ;;; for_each l' body
  end.

(** [for num, x in enumerate(l): body(num, x)], counting from [start]. *)
Fixpoint for_enumerate {A} (start : nat) (l : list A) (body : nat → A → M unit) : M unit :=
  match l with
  | [] => ret tt
  | x :: l' => body start x ;;; for_enumerate (S start) l' body
  end.

(** ** Dictionary operations on the store *)

Definition deref (h : gmap loc dict) (r : loc) : dict := default ∅ (h !! r).

(** [d[key] = v] on the dictionary object at [r]. *)
Definition dict_setitem (r : loc) (key : string) (v : pyval) : M unit :=
  modify (λ st, set_heap (<[r := <[key := v]> (deref (heap st) r)]> (heap st)) st).

(** [d.update(src)]: every entry of the dictionary at [src] is copied
    into the dictionary at [r]; entries of [src] win. *)
Definition dict_update (r src : loc) : M unit :=
  modify (λ st, set_heap
    (<[r := deref (heap st) src ∪ deref (heap st) r]> (heap st)) st).

(** A new dictionary object holding a copy of [d]. *)
Definition dict_copy_new (d : dict) : M loc :=
  λ st, let r := fresh (dom (heap st)) in
        (Ok r, set_heap (<[r := d]> (heap st)) st).

(** ** Python built-ins used by the driver *)

(** [l.insert(i, x)]: insertion before position [i]; an index past the
    end appends. *)
Fixpoint list_insert_at {A} (i : nat) (x : A) (l : list A) : list A :=
  match i, l with
  | O, _ => x :: l
  | S _, [] => [x]
  | S i', y :: l' => y :: list_insert_at i' x l'
  end.

(** [s.partition(sep)] for a one-character separator: the text before
    the first separator, the separator, and the text after it; without
    a separator, the whole text and two empty strings. *)
Fixpoint partition (sep : Ascii.ascii) (s : string) : string * string * string :=
  match s with
  | EmptyString => ("", "", "")
  | String c s' =>
      if decide (c = sep) then ("", String sep "", s')
      else let '(head, mid, tail) := partition sep s' in (String c head, mid, tail)
  end.

(** ** The parsed command line *)

(** The namespace [parser.parse_args()] returns: the repeatable [-I],
    [-D] and [-e] options in the order given, and the two positional
    arguments. *)
Record Config := {
  includedirs : list string;
  definitions : list string;
  extra : list string;
  specfile : string;
  templatefile : string
}.

(** ** Loading units *)

Record Module := {
  mod_name : string;
  mod_namespace : dict
}.

(** Execution of a unit's body, statement by statement, in the unit's
    own namespace [ns]. *)
Fixpoint exec_module (module_name : string) (body : list stmt) (ns : dict) : M dict :=
  match body with
  | [] => ret ns
  | SAssign name v :: body' => exec_module module_name body' (<[name := v]> ns)
  | SExport name v :: body' =>
      dict_setitem jinjautil.exports name v ;;;
      exec_module module_name body' ns
  | SExportFilter name v :: body' =>
      dict_setitem jinjautil.filters name v ;;;
      exec_module module_name body' ns
  | SRaise :: _ => raise (UnitRaised module_name)
  end.

Definition log_load (module_name module_path : string) : M unit :=
  modify (λ st, {| heap := heap st; sys_path := sys_path st;
                   loaded := loaded st ++ [(module_name, module_path)];
                   stdout := stdout st |}).

(** [load_module_from_file]: the file at [module_path] is executed as a
    module named [module_name], and the module is returned.  Both
    branches of the interpreter-version test do this. *)
Definition load_module_from_file (p : Process) (module_name module_path : string) : M Module :=
  match py_files p !! module_path with
  | None => raise (FileNotFoundError module_path)
  | Some body =>
      log_load module_name module_path ;;;
      ns <- exec_module module_name body {["__name__" := PStr module_name]} ;;
      ret {| mod_name := module_name; mod_namespace := ns |}
  end.

(** ** The template engine [jinja2]

    jinja2 is a third-party library.  The model covers the fragment of
    its behaviour the driver relies on: an environment with a loader, a
    [keep_trailing_newline] flag and two dictionaries of its own;
    templates made of literal text and of [{{ name }}] and
    [{{ name|filter|... }}] expressions; a name that is not bound prints
    as the empty text; filters are looked up in the environment's filter
    dictionary only.  A template that uses anything else is rejected as a
    syntax error. *)

Module jinja2.

Record Environment := {
  loader : jinjautil.SimpleLoader;
  keep_trailing_newline : bool;
  globals : loc;
  filters : loc
}.

Definition newline : Ascii.ascii := Ascii.ascii_of_nat 10.

(** The lexer drops one newline at the end of the source unless
    [keep_trailing_newline] is set. *)
Fixpoint strip_trailing_newline (s : string) : string :=
  match s with
  | EmptyString => ""
  | String c s' =>
      match s' with
      | EmptyString => if decide (c = newline) then "" else s
      | String _ _ => String c (strip_trailing_newline s')
      end
  end.

Inductive segment :=
  | Data (s : string)
  | Raw (s : string).

Definition snoc (s : string) (c : Ascii.ascii) : string := s +:+ String c "".

Definition is_pair (a b : Ascii.ascii) (c c' : Ascii.ascii) : bool :=
  bool_decide (c = a) && bool_decide (c' = b).

(** The source is cut into literal data and the raw text between [{{]
    and [}}].  Statement and comment delimiters are outside the
    fragment, and so is an expression that is not closed. *)
Fixpoint tokenize (in_expr : bool) (cur : string) (src : string) : option (list segment) :=
  match src with
  | EmptyString => if in_expr then None else Some [Data cur]
  | String c rest =>
      match rest with
      | EmptyString => if in_expr then None else Some [Data (snoc cur c)]
      | String c' rest' =>
          if in_expr then
            if is_pair "}"%char "}"%char c c' then cons (Raw cur) <$> tokenize false "" rest'
            else tokenize true (snoc cur c) rest
          else
            if is_pair "{"%char "{"%char c c' then cons (Data cur) <$> tokenize true "" rest'
            else if is_pair "{"%char "%"%char c c' || is_pair "{"%char "#"%char c c' then None
            else tokenize false (snoc cur c) rest
      end
  end.

Inductive piece :=
  | PData (s : string)
  | PExpr (name : string) (filter_names : list string).

Definition is_space (c : Ascii.ascii) : bool := bool_decide (c = " "%char).

Fixpoint lstrip (s : string) : string :=
  match s with
  | EmptyString => ""
  | String c s' => if is_space c then lstrip s' else s
  end.

Fixpoint rstrip (s : string) : string :=
  match s with
  | EmptyString => ""
  | String c s' =>
      match rstrip s' with
      | EmptyString => if is_space c then "" else String c ""
      | t => String c t
      end
  end.

Definition strip (s : string) : string := lstrip (rstrip s).

(** [s.split(sep)] for a one-character separator. *)
Fixpoint split (sep : Ascii.ascii) (s : string) : list string :=
  match s with
  | EmptyString => [""]
  | String c s' =>
      if decide (c = sep) then "" :: split sep s'
      else match split sep s' with
           | [] => [String c ""]
           | w :: ws => String c w :: ws
           end
  end.

Definition is_name_start (c : Ascii.ascii) : bool :=
  let n := Ascii.nat_of_ascii c in
  (65 <=? n)%nat && (n <=? 90)%nat || (97 <=? n)%nat && (n <=? 122)%nat || (n =? 95)%nat.

Definition is_name_char (c : Ascii.ascii) : bool :=
  let n := Ascii.nat_of_ascii c in
  is_name_start c || (48 <=? n)%nat && (n <=? 57)%nat.

Fixpoint all_chars (f : Ascii.ascii → bool) (s : string) : bool :=
  match s with
  | EmptyString => true
  | String c s' => f c && all_chars f s'
  end.

(** Words of the expression language that are not variable names. *)
Definition reserved : list string :=
  ["true"; "false"; "none"; "True"; "False"; "None";
   "and"; "or"; "not"; "in"; "is"; "if"; "else"; "self"].

Definition is_name (s : string) : bool :=
  match s with
  | EmptyString => false
  | String c _ => is_name_start c && all_chars is_name_char s
                  && bool_decide (s ∉ reserved)
  end.

Definition parse_expr (raw : string) : option piece :=
  match strip <$> split "|"%char raw with
  | name :: filter_names =>
      if is_name name && forallb is_name filter_names
      then Some (PExpr name filter_names) else None
  | [] => None
  end.

Definition parse_segment (sg : segment) : option piece :=
  match sg with
  | Data s => Some (PData s)
  | Raw s => parse_expr s
  end.

Definition parse (source : string) : option (list piece) :=
  tokenize false "" source ≫= mapM parse_segment.

Definition filters_of (pc : piece) : list string :=
  match pc with
  | PData _ => []
  | PExpr _ fs => fs
  end.

Record Template := {
  environment : Environment;
  body : list piece
}.

(** [Environment(loader=..., keep_trailing_newline=...)]: the new
    environment gets dictionaries of its own, copies of the defaults. *)
Definition new_Environment (p : Process) (l : jinjautil.SimpleLoader) (keep : bool)
  : M Environment :=
  g <- dict_copy_new (DEFAULT_NAMESPACE p) ;;
  f <- dict_copy_new (DEFAULT_FILTERS p) ;;
  ret {| loader := l; keep_trailing_newline := keep; globals := g; filters := f |}.

(** The first filter name of the template that the environment does not
    know, if any. *)
Definition unknown_filter (fd : dict) (pieces : list piece) : option string :=
  head (List.filter (λ f, bool_decide (fd !! f = None)) (pieces ≫= filters_of)).

(** [env.get_template(name)]: resolve the name with the loader, lex and
    parse the source, and check the filter names. *)
Definition get_template (p : Process) (env : Environment) (name : string) : M Template :=
  match jinjautil.get_source (text_files p) (loader env) name with
  | None => raise (TemplateNotFound name)
  | Some (contents, _) =>
      let source := if keep_trailing_newline env then contents
                    else strip_trailing_newline contents in
      match parse source with
      | None => raise TemplateSyntaxError
      | Some pieces =>
          st <- get_state ;;
          match unknown_filter (deref (heap st) (filters env)) pieces with
          | Some f => raise (TemplateAssertionError f)
          | None => ret {| environment := env; body := pieces |}
          end
      end
  end.

Definition call_filter (fd : dict) (text : result string) (f : string) : result string :=
  match text with
  | Raise e => Raise e
  | Ok t =>
      match fd !! f with
      | None => Raise (TemplateAssertionError f)
      | Some (PFun g) =>
          match g t with
          | Some t' => Ok t'
          | None => Raise (FilterRaised f)
          end
      | Some _ => Raise (TypeError f)
      end
  end.

Definition render_piece (gd fd : dict) (pc : piece) : result string :=
  match pc with
  | PData s => Ok s
  | PExpr name fs =>
      foldl (call_filter fd) (Ok (from_option to_text "" (gd !! name))) fs
  end.

(** The pieces are rendered left to right into one text; the first
    failure ends the rendering and nothing of the text is returned. *)
Fixpoint render_pieces (gd fd : dict) (pieces : list piece) : result string :=
  match pieces with
  | [] => Ok ""
  | pc :: pieces' =>
      match render_piece gd fd pc with
      | Raise e => Raise e
      | Ok t =>
          match render_pieces gd fd pieces' with
          | Raise e => Raise e
          | Ok t' => Ok (t +:+ t')
          end
      end
  end.

(** [template.render()]: the names are read from the environment's
    dictionaries as they are at the time of the call. *)
Definition render (t : Template) : M string :=
  st <- get_state ;;
  match render_pieces (deref (heap st) (globals (environment t)))
                      (deref (heap st) (filters (environment t))) (body t) with
  | Ok text => ret text
  | Raise e => raise e
  end.

End jinja2.

(** ** The driver *)

(** [sys.path.insert(1, dir)] *)
Definition sys_path_insert (i : nat) (dir : string) : M unit :=
  modify (λ st, {| heap := heap st; sys_path := list_insert_at i dir (sys_path st);
                   loaded := loaded st; stdout := stdout st |}).

(** [sys.stdout.write(text)] *)
Definition stdout_write (text : string) : M unit :=
  modify (λ st, {| heap := heap st; sys_path := sys_path st;
                   loaded := loaded st; stdout := stdout st +:+ text |}).

(** ['extra%s' % (num,)] *)
Definition extra_name (num : nat) : string := "extra" +:+ pretty num.

(** One round of the loop over [config.extra]. *)
Definition load_extra (p : Process) (num : nat) (extrafile : string) : M unit :=
  _ <- load_module_from_file p (extra_name num) extrafile ;; ret tt.

(** One round of the loop over [config.definitions]. *)
Definition apply_definition (env : jinja2.Environment) (definition : string) : M unit :=
  let '(name, _, replacement) := partition "="%char definition in
  dict_setitem (jinja2.globals env) name (PStr replacement).

(** The driver up to and including the [-D] loop: it returns the
    environment that the template is then looked up and rendered in. *)
Definition setup (config : Config) (p : Process) : M jinja2.Environment :=
  for_each (includedirs config) (λ dir, sys_path_insert 1 dir) ;;;
  let loader := {| jinjautil.includedirs := proc_loader_dirs p |} in
  let loader := {| jinjautil.includedirs :=
                     jinjautil.includedirs loader ++ includedirs config |} in
  _ <- load_module_from_file p "spec" (specfile config) ;;
  for_enumerate 0 (extra config) (load_extra p) ;;;
  env <- jinja2.new_Environment p loader true ;;
  dict_update (jinja2.globals env) jinjautil.exports ;;;
  dict_update (jinja2.filters env) jinjautil.filters ;;;
  for_each (definitions config) (apply_definition env) ;;;
  ret env.

Definition main (config : Config) (p : Process) : M unit :=
  env <- setup config p ;;
  template <- jinja2.get_template p env (templatefile config) ;;
  result <- jinja2.render template ;;
  stdout_write result.

(** The whole run, from the start of the process. *)
Definition run (config : Config) (p : Process) : result unit * State :=
  main config p (init_state p).

(** ** Vocabulary of the statements *)

(** Whether a character occurs in a text. *)
Fixpoint contains (c : ascii) (s : string) : bool :=
  match s with
  | EmptyString => false
  | String c' s' => bool_decide (c' = c) || contains c s'
  end.

Definition definition_name (definition : string) : string :=
  (partition "="%char definition).1.1.

Definition definition_value (definition : string) : string :=
  (partition "="%char definition).2.

(** The value of the last definition of [name] on the command line. *)
Fixpoint last_definition (name : string) (defs : list string) : option string :=
  match defs with
  | [] => None
  | d :: defs' =>
      match last_definition name defs' with
      | Some v => Some v
      | None => if decide (definition_name d = name) then Some (definition_value d) else None
      end
  end.

(** The registry's globals after a unit's body has run on top of [d]. *)
Fixpoint unit_exports (body : list stmt) (d : dict) : dict :=
  match body with
  | [] => d
  | SExport name v :: body' => unit_exports body' (<[name := v]> d)
  | SRaise :: _ => d
  | _ :: body' => unit_exports body' d
  end.

(** The registry's filters after a unit's body has run on top of [d]. *)
Fixpoint unit_filters (body : list stmt) (d : dict) : dict :=
  match body with
  | [] => d
  | SExportFilter name v :: body' => unit_filters body' (<[name := v]> d)
  | SRaise :: _ => d
  | _ :: body' => unit_filters body' d
  end.

(** The bodies of the units of a run, in command-line order. *)
Definition unit_bodies (config : Config) (p : Process) : list (list stmt) :=
  (λ path, default [] (py_files p !! path)) <$> (specfile config :: extra config).

(** The extra units of a command line with the names they are executed
    under, numbered from [start]. *)
Definition extra_loads (start : nat) (extras : list string) : list (string * string) :=
  imap (λ num path, (extra_name (start + num), path)) extras.

(** The units a complete run executes, in order, with their names. *)
Definition expected_loads (config : Config) : list (string * string) :=
  ("spec", specfile config) :: extra_loads 0 (extra config).


(** The search path of the loader the driver builds. *)
Definition driver_loader (config : Config) (p : Process) : jinjautil.SimpleLoader :=
  {| jinjautil.includedirs := proc_loader_dirs p ++ includedirs config |}.

(** What a step may do to the state when all it writes is the registry:
    the streams and the module path are as before, every other object
    of the store is as before, and no object disappears. *)
Record registry_frame (st st' : State) : Prop := {
  rf_sys_path : sys_path st' = sys_path st;
  rf_stdout : stdout st' = stdout st;
  rf_others : ∀ r, r ≠ jinjautil.exports → r ≠ jinjautil.filters →
                   heap st' !! r = heap st !! r;
  rf_dom : dom (heap st) ⊆ dom (heap st')
}.

(** What holds when the driver has built its environment: where the
    search paths, the load record and the streams stand, that the four
    dictionaries are four objects, what the registry holds, and what the
    environment's two dictionaries hold. *)
Record setup_post (config : Config) (p : Process) (env : jinja2.Environment) (st : State)
  : Prop := {
  sp_loader : jinja2.loader env = driver_loader config p;
  sp_keep : jinja2.keep_trailing_newline env = true;
  sp_sys_path :
    sys_path st = foldl (λ acc d, list_insert_at 1 d acc) (proc_sys_path p) (includedirs config);
  sp_loaded : loaded st = expected_loads config;
  sp_stdout : stdout st = "";
  sp_refs :
    NoDup [jinjautil.exports; jinjautil.filters; jinja2.globals env; jinja2.filters env];
  sp_exports :
    deref (heap st) jinjautil.exports =
    foldl (λ d body, unit_exports body d) (proc_exports p) (unit_bodies config p);
  sp_filters :
    deref (heap st) jinjautil.filters =
    foldl (λ d body, unit_filters body d) (proc_filters p) (unit_bodies config p);
  sp_env_filters :
    deref (heap st) (jinja2.filters env) =
    deref (heap st) jinjautil.filters ∪ DEFAULT_FILTERS p;
  sp_env_globals : ∀ name,
    deref (heap st) (jinja2.globals env) !! name =
    match last_definition name (definitions config) with
    | Some v => Some (PStr v)
    | None => (deref (heap st) jinjautil.exports ∪ DEFAULT_NAMESPACE p) !! name
    end
}.

(** The last value a unit's body registers for [name] as a global. *)
Fixpoint last_export (name : string) (body : list stmt) : option pyval :=
  match body with
  | [] => None
  | SRaise :: _ => None
  | s :: body' =>
      match last_export name body' with
      | Some v => Some v
      | None =>
          match s with
          | SExport n v => if decide (n = name) then Some v else None
          | _ => None
          end
      end
  end.

(** What the registry binds [name] to once the units have run: the last
    registration by a unit, and otherwise what it held at the start. *)
Definition registry_lookup (config : Config) (p : Process) (name : string) : option pyval :=
  foldl (λ acc body, match last_export name body with Some v => Some v | None => acc end)
        (proc_exports p !! name) (unit_bodies config p).

(** The reading of the binding rule under which a unit's top-level names
    are binding sources of their own: a name the specification unit
    defines at top level, which the registry also binds and no
    definition overrides, is bound to the unit's value. *)
Definition unit_names_shadow_registry : Prop :=
  ∀ config p env st m st1 name v,
    setup config p (init_state p) = (Ok env, st) →
    load_module_from_file p "spec" (specfile config) (init_state p) = (Ok m, st1) →
    mod_namespace m !! name = Some v →
    is_Some (deref (heap st) jinjautil.exports !! name) →
    last_definition name (definitions config) = None →
    deref (heap st) (jinja2.globals env) !! name = Some v.


(** ** Vocabulary of the driver's outcomes *)






(** The body of the unit at a path; a path without a file has none. *)
Definition body_of (p : Process) (path : string) : list stmt :=
  default [] (py_files p !! path).

(** The registry's globals and filters after the units at [paths] ran,
    in that order, on top of [d]. *)
Definition exports_after (p : Process) (paths : list string) (d : dict) : dict :=
  foldl (λ d path, unit_exports (body_of p path) d) d paths.

Definition filters_after (p : Process) (paths : list string) (d : dict) : dict :=
  foldl (λ d path, unit_filters (body_of p path) d) d paths.

(** [sys.path] after the loop over the include directories. *)
Definition sys_path_after (dirs : list string) (path : list string) : list string :=
  foldl (λ acc d, list_insert_at 1 d acc) path dirs.

(** ** Sample inputs *)

Module Sample.

Definition wrap (s : string) : option string := Some ("<" +:+ s +:+ ">").
Definition trim (s : string) : option string := Some (jinja2.strip s).

Definition process : Process := {|
  proc_sys_path := ["/scripts"; "/usr/lib/python3"];
  proc_exports := {["NAME" := PStr "reg"]};
  proc_filters := {["wrap" := PFun wrap; "broken" := PFun (λ _, None)]};
  proc_loader_dirs := [""];
  DEFAULT_NAMESPACE := {["range" := PFun (λ _, None)]};
  DEFAULT_FILTERS := {["trim" := PFun trim]};
  py_files :=
    {[ "spec.py" := [SAssign "NAME" (PStr "x"); SExport "nodes" (PInt 3)];
       "extra.py" := [SExport "nodes" (PInt 4); SExportFilter "wrap" (PFun wrap)];
       "more.py" := [SAssign "helper" (PInt 0)] ]};
  text_files :=
    {[ "/tpl_a/out.tmpl" := "A {{ NAME }} {{ nodes|wrap }}
";
       "/tpl_b/out.tmpl" := "B
";
       "/tpl_a/bad.tmpl" := "partial {{ NAME|nofilter }}";
       "/tpl_a/raise.tmpl" := "partial {{ NAME|broken }} rest" ]}
|}.

Definition config : Config := {|
  includedirs := ["/tpl_a"; "/tpl_b"];
  definitions := [];
  extra := ["extra.py"; "more.py"];
  specfile := "spec.py";
  templatefile := "out.tmpl"
|}.

Definition with_definitions (defs : list string) : Config := {|
  includedirs := includedirs config;
  definitions := defs;
  extra := extra config;
  specfile := specfile config;
  templatefile := templatefile config
|}.

Definition with_template (name : string) : Config := {|
  includedirs := includedirs config;
  definitions := definitions config;
  extra := extra config;
  specfile := specfile config;
  templatefile := name
|}.

(** The environment the driver builds from the sample inputs. *)
Definition env : jinja2.Environment := {|
  jinja2.loader := driver_loader config process;
  jinja2.keep_trailing_newline := true;
  jinja2.globals := 3%positive;
  jinja2.filters := 4%positive
|}.

(** The sample command line with three definitions, two of them for
    the same name. *)
Definition override_config : Config := with_definitions ["NAME=7"; "NAME=42"; "X"].

(** The state the driver's first part leaves for a command line. *)
Definition setup_state (config : Config) : State :=
  (setup config process (init_state process)).2.

(** Registrations made after the environment has been built. *)
Definition late_writes : list stmt :=
  [SExport "NAME" (PStr "late"); SExportFilter "wrap" (PStr "gone")].

(** An environment like the driver's that does not keep the trailing
    newline. *)
Definition stripping_env : jinja2.Environment := {|
  jinja2.loader := driver_loader config process;
  jinja2.keep_trailing_newline := false;
  jinja2.globals := 3%positive;
  jinja2.filters := 4%positive
|}.

End Sample.

(** ** Further sample inputs *)

Module Probe.

(** The sample process with two more units: one that raises between two
    registrations, and one that rebinds a top-level name. *)
Definition process : Process := {|
  proc_sys_path := proc_sys_path Sample.process;
  proc_exports := proc_exports Sample.process;
  proc_filters := proc_filters Sample.process;
  proc_loader_dirs := proc_loader_dirs Sample.process;
  DEFAULT_NAMESPACE := DEFAULT_NAMESPACE Sample.process;
  DEFAULT_FILTERS := <["wrap" := PFun Sample.trim]> (DEFAULT_FILTERS Sample.process);
  py_files :=
    <["boom.py" := [SExport "early" (PInt 1); SRaise; SExport "late" (PInt 2)]]>
    (<["twice.py" := [SAssign "v" (PInt 1); SExport "v" (PInt 0); SAssign "v" (PInt 2)]]>
       (py_files Sample.process));
  text_files := text_files Sample.process
|}.

Definition with_units (spec : string) (extras : list string) : Config := {|
  includedirs := includedirs Sample.config;
  definitions := definitions Sample.config;
  extra := extras;
  specfile := spec;
  templatefile := templatefile Sample.config
|}.

(** The state at the end of a run. *)
Definition final_state (config : Config) (p : Process) : State := (run config p).2.

(** The state the driver's first part ends in. *)
Definition setup_end (config : Config) (p : Process) : State :=
  (setup config p (init_state p)).2.

End Probe.

(** * Properties *)

(** ** The monad *)

Lemma bind_inv {A B} (m : M A) (k : A → M B) st r st2 :
  bind m k st = (r, st2) →
  (∃ e, m st = (Raise e, st2) ∧ r = Raise e) ∨
  (∃ a st1, m st = (Ok a, st1) ∧ k a st1 = (r, st2)).
Proof.
  unfold bind. destruct (m st) as [[a|e] st1]; intros H.
  - right. eauto.
  - left. inversion H; subst. eauto.
Qed.

Lemma bind_ok_inv {A B} (m : M A) (k : A → M B) st b st2 :
  bind m k st = (Ok b, st2) →
  ∃ a st1, m st = (Ok a, st1) ∧ k a st1 = (Ok b, st2).
Proof.
  intros H. apply bind_inv in H as [(e & _ & He)|H]; [discriminate|done].
Qed.


(** ** Built-ins *)

Lemma partition_no_sep sep s :
  contains sep s = false → partition sep s = (s, "", "").
Proof.
  induction s as [|c s IH]; simpl; [done|].
  intros H. apply orb_false_iff in H as [Hc Hs].
  apply bool_decide_eq_false in Hc.
  destruct (decide (c = sep)); [done|]. by rewrite IH.
Qed.

Lemma partition_first_sep sep name rest :
  contains sep name = false →
  partition sep (name +:+ String sep rest) = (name, String sep "", rest).
Proof.
  induction name as [|c name IH]; simpl.
  - intros _. by destruct (decide (sep = sep)).
  - intros H. apply orb_false_iff in H as [Hc Hs].
    apply bool_decide_eq_false in Hc.
    destruct (decide (c = sep)); [done|]. by rewrite IH.
Qed.

Lemma partition_name_no_sep sep s : contains sep (partition sep s).1.1 = false.
Proof.
  induction s as [|c s IH]; simpl; [done|].
  destruct (decide (c = sep)); [done|].
  destruct (partition sep s) as [[h m] t]. simpl in *.
  rewrite IH. by rewrite bool_decide_eq_false_2.
Qed.

Lemma list_insert_at_1_loop (dirs : list string) (x : string) (l : list string) :
  foldl (λ acc d, list_insert_at 1 d acc) (x :: l) dirs = x :: rev dirs ++ l.
Proof.
  revert l. induction dirs as [|d dirs IH]; intros l; simpl; [done|].
  rewrite IH. by rewrite <- app_assoc.
Qed.

Lemma list_insert_at_1_loop_nil (dirs : list string) (d : string) :
  foldl (λ acc d, list_insert_at 1 d acc) [] (d :: dirs) = d :: rev dirs.
Proof. simpl. rewrite list_insert_at_1_loop. by rewrite app_nil_r. Qed.

(** ** The store *)

Lemma deref_insert_eq (h : gmap loc dict) r d : deref (<[r := d]> h) r = d.
Proof. unfold deref. by rewrite lookup_insert_eq. Qed.

Lemma deref_insert_ne (h : gmap loc dict) r r' d :
  r ≠ r' → deref (<[r := d]> h) r' = deref h r'.
Proof. intros. unfold deref. by rewrite lookup_insert_ne. Qed.

Lemma exports_ne_filters : jinjautil.exports ≠ jinjautil.filters.
Proof. done. Qed.

Lemma registry_frame_refl st : registry_frame st st.
Proof. by split. Qed.

Lemma registry_frame_trans st1 st2 st3 :
  registry_frame st1 st2 → registry_frame st2 st3 → registry_frame st1 st3.
Proof.
  intros [] []. split; try congruence.
  - intros r H1 H2. rewrite rf_others1, rf_others0; done.
  - set_solver.
Qed.

Lemma dict_setitem_exports name v st :
  registry_frame st (dict_setitem jinjautil.exports name v st).2
  ∧ loaded (dict_setitem jinjautil.exports name v st).2 = loaded st
  ∧ deref (heap (dict_setitem jinjautil.exports name v st).2) jinjautil.exports
    = <[name := v]> (deref (heap st) jinjautil.exports)
  ∧ deref (heap (dict_setitem jinjautil.exports name v st).2) jinjautil.filters
    = deref (heap st) jinjautil.filters.
Proof.
  simpl. split_and!; [split; simpl; try done| done | | ].
  - intros r H _. by rewrite lookup_insert_ne.
  - rewrite dom_insert. set_solver.
  - by rewrite deref_insert_eq.
  - by rewrite deref_insert_ne.
Qed.

Lemma dict_setitem_filters name v st :
  registry_frame st (dict_setitem jinjautil.filters name v st).2
  ∧ loaded (dict_setitem jinjautil.filters name v st).2 = loaded st
  ∧ deref (heap (dict_setitem jinjautil.filters name v st).2) jinjautil.filters
    = <[name := v]> (deref (heap st) jinjautil.filters)
  ∧ deref (heap (dict_setitem jinjautil.filters name v st).2) jinjautil.exports
    = deref (heap st) jinjautil.exports.
Proof.
  simpl. split_and!; [split; simpl; try done| done | | ].
  - intros r _ H. by rewrite lookup_insert_ne.
  - rewrite dom_insert. set_solver.
  - by rewrite deref_insert_eq.
  - by rewrite deref_insert_ne.
Qed.

(** ** Execution of a unit *)

Lemma exec_module_spec module_name body ns st r st' :
  exec_module module_name body ns st = (r, st') →
  registry_frame st st'
  ∧ loaded st' = loaded st
  ∧ deref (heap st') jinjautil.exports = unit_exports body (deref (heap st) jinjautil.exports)
  ∧ deref (heap st') jinjautil.filters = unit_filters body (deref (heap st) jinjautil.filters).
Proof.
  revert ns st. induction body as [|s body IH]; intros ns st H.
  - inversion H; subst. split; [apply registry_frame_refl|done].
  - destruct s as [name v|name v|name v|]; simpl in H.
    + apply IH in H. done.
    + destruct (dict_setitem_exports name v st) as (Hf & Hl & He & Hfi).
      apply IH in H as (Hf' & Hl' & He' & Hfi').
      split; [by eapply registry_frame_trans|].
      simpl. rewrite Hl', He', Hfi'. simpl in *. by rewrite He, Hfi.
    + destruct (dict_setitem_filters name v st) as (Hf & Hl & Hfi & He).
      apply IH in H as (Hf' & Hl' & He' & Hfi').
      split; [by eapply registry_frame_trans|].
      simpl. rewrite Hl', He', Hfi'. simpl in *. by rewrite He, Hfi.
    + inversion H; subst. split; [apply registry_frame_refl|done].
Qed.

(** A unit's own top-level bindings end up in the module object and
    nowhere else. *)
Lemma exec_module_namespace module_name body ns st ns' st' name :
  exec_module module_name body ns st = (Ok ns', st') →
  Forall (λ s, ∀ v, s ≠ SAssign name v) body →
  ns' !! name = ns !! name.
Proof.
  revert ns st. induction body as [|s body IH]; intros ns st H Hall.
  - by inversion H.
  - apply Forall_cons in Hall as [Hs Hall].
    destruct s as [n v|n v|n v|]; simpl in H.
    + apply IH in H; [|done]. rewrite H. apply lookup_insert_ne.
      intros ->. by eapply Hs.
    + by apply IH in H.
    + by apply IH in H.
    + done.
Qed.

(** The outcome of one call of [load_module_from_file]. *)
Lemma load_module_from_file_spec p module_name module_path st r st' :
  load_module_from_file p module_name module_path st = (r, st') →
  (py_files p !! module_path = None ∧ st' = st ∧ r = Raise (FileNotFoundError module_path))
  ∨ (∃ body, py_files p !! module_path = Some body
     ∧ registry_frame st st'
     ∧ loaded st' = loaded st ++ [(module_name, module_path)]
     ∧ deref (heap st') jinjautil.exports = unit_exports body (deref (heap st) jinjautil.exports)
     ∧ deref (heap st') jinjautil.filters = unit_filters body (deref (heap st) jinjautil.filters)).
Proof.
  unfold load_module_from_file.
  destruct (py_files p !! module_path) as [body|] eqn:Hfile; intros H.
  - right. exists body. split; [done|].
    unfold bind in H. simpl in H.
    destruct (exec_module _ _ _ _) as [[ns|e] st1] eqn:Hexec;
      apply exec_module_spec in Hexec as ([] & Hl & He & Hfi);
      inversion H; subst; (split; [by split|done]).
  - left. by inversion H.
Qed.

(** ** The phases of the driver *)

(** The loop over the include directories only rewrites [sys.path]. *)
Lemma include_loop dirs st :
  for_each dirs (sys_path_insert 1) st =
  (Ok tt, {| heap := heap st;
             sys_path := foldl (λ acc d, list_insert_at 1 d acc) (sys_path st) dirs;
             loaded := loaded st; stdout := stdout st |}).
Proof.
  revert st. induction dirs as [|d dirs IH]; intros st; simpl.
  - by destruct st.
  - unfold bind. simpl. by rewrite IH.
Qed.

Lemma extra_loads_cons start path extras :
  extra_loads start (path :: extras) = (extra_name start, path) :: extra_loads (S start) extras.
Proof.
  unfold extra_loads. simpl. rewrite Nat.add_0_r. f_equal.
  apply imap_ext. intros i x _. simpl. do 2 f_equal. lia.
Qed.

(** Whatever the outcome, the units executed so far are an initial part
    of the list on the command line, each under its numbered name. *)
Lemma load_extras_any p extras start st r st' :
  for_enumerate start extras (load_extra p) st = (r, st') →
  registry_frame st st'
  ∧ ∃ k, loaded st' = loaded st ++ take k (extra_loads start extras).
Proof.
  revert start st. induction extras as [|path extras IH]; intros start st H.
  - inversion H; subst. split; [apply registry_frame_refl|].
    exists 0. by rewrite app_nil_r.
  - simpl in H. apply bind_inv in H as [(e & H & ->)|(a & st1 & H & Hrest)].
    + unfold load_extra in H.
      apply bind_inv in H as [(e' & H & _)|(m & st2 & H & Hret)].
      * apply load_module_from_file_spec in H as [(_ & -> & _)|(body & _ & Hf & Hl & _)].
        -- split; [apply registry_frame_refl|]. exists 0. by rewrite app_nil_r.
        -- split; [done|]. exists 1. by rewrite extra_loads_cons.
      * by inversion Hret.
    + unfold load_extra in H.
      apply bind_ok_inv in H as (m & st2 & H & Hret). inversion Hret; subst.
      apply load_module_from_file_spec in H as [(_ & _ & ?)|(body & _ & Hf & Hl & _)];
        [done|].
      apply IH in Hrest as (Hf' & k & Hk).
      split; [by eapply registry_frame_trans|].
      exists (S k). rewrite extra_loads_cons. simpl.
      rewrite Hk, Hl. by rewrite <- app_assoc.
Qed.

(** When every extra unit ran to its end, all of them were executed, in
    order, and the registry holds their writes in that order. *)
Lemma load_extras_ok p extras start st st' :
  for_enumerate start extras (load_extra p) st = (Ok tt, st') →
  loaded st' = loaded st ++ extra_loads start extras
  ∧ deref (heap st') jinjautil.exports =
    foldl (λ d body, unit_exports body d) (deref (heap st) jinjautil.exports)
          ((λ path, default [] (py_files p !! path)) <$> extras)
  ∧ deref (heap st') jinjautil.filters =
    foldl (λ d body, unit_filters body d) (deref (heap st) jinjautil.filters)
          ((λ path, default [] (py_files p !! path)) <$> extras).
Proof.
  revert start st. induction extras as [|path extras IH]; intros start st H.
  - inversion H; subst. by rewrite app_nil_r.
  - simpl in H. apply bind_ok_inv in H as (a & st1 & H & Hrest).
    unfold load_extra in H.
    apply bind_ok_inv in H as (m & st2 & H & Hret). inversion Hret; subst.
    apply load_module_from_file_spec in H
      as [(_ & _ & ?)|(body & Hfile & Hf & Hl & He & Hfi)]; [done|].
    apply IH in Hrest as (Hl' & He' & Hfi').
    rewrite extra_loads_cons. simpl. rewrite Hfile. simpl.
    rewrite Hl', He', Hfi', Hl, He, Hfi. by rewrite <- app_assoc.
Qed.

(** A new environment owns two new dictionaries, copies of the
    defaults; the objects that were there are as before. *)
Lemma new_Environment_spec p l keep st r st' :
  jinja2.new_Environment p l keep st = (r, st') →
  ∃ g f,
    r = Ok {| jinja2.loader := l; jinja2.keep_trailing_newline := keep;
              jinja2.globals := g; jinja2.filters := f |}
    ∧ (g ∉ dom (heap st)) ∧ (f ∉ dom (heap st)) ∧ g ≠ f
    ∧ deref (heap st') g = DEFAULT_NAMESPACE p
    ∧ deref (heap st') f = DEFAULT_FILTERS p
    ∧ (∀ r', r' ∈ dom (heap st) → deref (heap st') r' = deref (heap st) r')
    ∧ sys_path st' = sys_path st ∧ loaded st' = loaded st ∧ stdout st' = stdout st.
Proof.
  intros H. unfold jinja2.new_Environment, bind, dict_copy_new, ret in H.
  simpl in H. inversion H; subst r st'; clear H.
  set (g := fresh (dom (heap st))).
  set (f := fresh (dom (<[g := DEFAULT_NAMESPACE p]> (heap st)))).
  pose proof (is_fresh (dom (heap st))) as Hg.
  pose proof (is_fresh (dom (<[g := DEFAULT_NAMESPACE p]> (heap st)))) as Hf.
  fold g in Hg. fold f in Hf. rewrite dom_insert_L in Hf.
  assert (g ≠ f) as Hgf by (intros Heq; apply Hf; rewrite <- Heq; set_solver).
  assert (f ∉ dom (heap st)) as Hf' by set_solver.
  exists g, f. simpl. split_and!; try done.
  - by rewrite deref_insert_ne, deref_insert_eq.
  - by rewrite deref_insert_eq.
  - intros r' Hr'. rewrite !deref_insert_ne; [done|by intros ->..].
Qed.

Lemma dict_update_spec r src st res st' :
  dict_update r src st = (res, st') →
  res = Ok tt
  ∧ deref (heap st') r = deref (heap st) src ∪ deref (heap st) r
  ∧ (∀ r', r' ≠ r → deref (heap st') r' = deref (heap st) r')
  ∧ sys_path st' = sys_path st ∧ loaded st' = loaded st ∧ stdout st' = stdout st.
Proof.
  intros H. inversion H; subst; clear H. simpl. split_and!; try done.
  - by rewrite deref_insert_eq.
  - intros r' Hr'. by rewrite deref_insert_ne.
Qed.

Lemma apply_definition_eq env d :
  apply_definition env d =
  dict_setitem (jinja2.globals env) (definition_name d) (PStr (definition_value d)).
Proof.
  unfold apply_definition, definition_name, definition_value.
  by destruct (partition "="%char d) as [[name mid] replacement].
Qed.

(** The loop over the definitions writes to the environment's globals
    and to nothing else; a name defined several times keeps the last
    value. *)
Lemma definitions_loop env defs st :
  ∃ st', for_each defs (apply_definition env) st = (Ok tt, st')
  ∧ sys_path st' = sys_path st ∧ loaded st' = loaded st ∧ stdout st' = stdout st
  ∧ (∀ r, r ≠ jinja2.globals env → heap st' !! r = heap st !! r)
  ∧ (∀ name, deref (heap st') (jinja2.globals env) !! name =
             match last_definition name defs with
             | Some v => Some (PStr v)
             | None => deref (heap st) (jinja2.globals env) !! name
             end).
Proof.
  revert st. induction defs as [|d defs IH]; intros st.
  - exists st. repeat split.
  - cbn [for_each last_definition]. rewrite apply_definition_eq.
    unfold bind. cbn [dict_setitem modify].
    edestruct IH as (st' & -> & Hp & Hl & Ho & Hframe & Hlook).
    exists st'. split; [done|]. simpl in Hp, Hl, Ho, Hframe, Hlook.
    split_and!; try done.
    + intros r Hr. rewrite Hframe by done. by rewrite lookup_insert_ne.
    + intros name. rewrite Hlook.
      destruct (last_definition name defs); [done|].
      rewrite deref_insert_eq.
      destruct (decide (definition_name d = name)) as [->|Hne].
      * by rewrite lookup_insert_eq.
      * by rewrite lookup_insert_ne.
Qed.

(** ** The driver up to the environment *)

Lemma init_state_registry p :
  deref (heap (init_state p)) jinjautil.exports = proc_exports p
  ∧ deref (heap (init_state p)) jinjautil.filters = proc_filters p
  ∧ jinjautil.exports ∈ dom (heap (init_state p))
  ∧ jinjautil.filters ∈ dom (heap (init_state p)).
Proof.
  simpl. split_and!.
  - by rewrite deref_insert_ne, deref_insert_eq.
  - by rewrite deref_insert_eq.
  - rewrite !dom_insert_L. set_solver.
  - rewrite !dom_insert_L. set_solver.
Qed.

Lemma setup_ok config p env st :
  setup config p (init_state p) = (Ok env, st) → setup_post config p env st.
Proof.
  unfold setup. intros H.
  destruct (init_state_registry p) as (He0 & Hfi0 & Hin1 & Hin2).
  apply bind_ok_inv in H as ([] & st1 & H1 & H).
  rewrite include_loop in H1. inversion H1 as [Hst1]; clear H1.
  assert (heap st1 = heap (init_state p) ∧ loaded st1 = [] ∧ stdout st1 = ""
          ∧ sys_path st1 = foldl (λ acc d, list_insert_at 1 d acc) (proc_sys_path p)
                                 (includedirs config)) as (Hh1 & Hl1 & Ho1 & Hp1).
  { by subst st1. }
  clear Hst1.
  apply bind_ok_inv in H as (m & st2 & H2 & H).
  apply load_module_from_file_spec in H2
    as [(_ & _ & ?)|(body & Hfile & Hf2 & Hl2 & He2 & Hfi2)]; [done|].
  apply bind_ok_inv in H as ([] & st3 & H3 & H).
  pose proof (load_extras_any _ _ _ _ _ _ H3) as [Hf3 _].
  apply load_extras_ok in H3 as (Hl3 & He3 & Hfi3).
  pose proof (registry_frame_trans _ _ _ Hf2 Hf3) as [Hp Ho _ Hdom].
  rewrite Hh1 in *.
  apply bind_ok_inv in H as (env' & st4 & H4 & H).
  apply new_Environment_spec in H4
    as (g & f & Henv & Hg & Hf & Hgf & D4g & D4f & D4 & Hp4 & Hl4 & Ho4).
  inversion Henv; subst env'; clear Henv. simpl in H.
  assert (g ≠ jinjautil.exports) as Hg1 by (intros ->; set_solver).
  assert (g ≠ jinjautil.filters) as Hg2 by (intros ->; set_solver).
  assert (f ≠ jinjautil.exports) as Hf1 by (intros ->; set_solver).
  assert (f ≠ jinjautil.filters) as Hf2' by (intros ->; set_solver).
  apply bind_ok_inv in H as ([] & st5 & H5 & H).
  apply dict_update_spec in H5 as (_ & D5g & D5 & Hp5 & Hl5 & Ho5).
  apply bind_ok_inv in H as ([] & st6 & H6 & H).
  apply dict_update_spec in H6 as (_ & D6f & D6 & Hp6 & Hl6 & Ho6).
  apply bind_ok_inv in H as ([] & st7 & H7 & H).
  inversion H; subst env st7; clear H. simpl in *.
  edestruct definitions_loop as (st' & Hloop & Hp' & Hl' & Ho' & Hframe & Hlook).
  rewrite Hloop in H7. inversion H7; subst st'; clear H7 Hloop.
  simpl in Hframe, Hlook.
  assert (∀ r, r ≠ g → deref (heap st) r = deref (heap st6) r) as D7.
  { intros r Hr. unfold deref. by rewrite Hframe. }
  assert (deref (heap st) jinjautil.exports = deref (heap st3) jinjautil.exports) as Hex.
  { rewrite D7, D6, D5, D4 by (done || set_solver). done. }
  assert (deref (heap st) jinjautil.filters = deref (heap st3) jinjautil.filters) as Hfx.
  { rewrite D7, D6, D5, D4 by (done || set_solver). done. }
  split; simpl.
  - done.
  - done.
  - by rewrite Hp', Hp6, Hp5, Hp4, Hp.
  - by rewrite Hl', Hl6, Hl5, Hl4, Hl3, Hl2, Hl1.
  - by rewrite Ho', Ho6, Ho5, Ho4, Ho.
  - repeat (apply NoDup_cons; split); [| | |by apply not_elem_of_nil|apply NoDup_nil_2];
      rewrite ?elem_of_cons, elem_of_nil; intros H; destruct_or?; done.
  - rewrite Hex, He3, He2, He0. unfold unit_bodies. simpl. by rewrite Hfile.
  - rewrite Hfx, Hfi3, Hfi2, Hfi0. unfold unit_bodies. simpl. by rewrite Hfile.
  - rewrite Hfx. rewrite D7 by done. rewrite D6f.
    rewrite (D5 jinjautil.filters), (D5 f) by done.
    rewrite D4f. rewrite D4 by set_solver. done.
  - intros name. rewrite Hlook.
    destruct (last_definition name (definitions config)); [done|].
    rewrite Hex. rewrite D6 by done. rewrite D5g, D4g. rewrite D4 by set_solver. done.
Qed.

(** Whatever the outcome of the driver's first part, nothing has been
    written to standard output, and the units executed so far are an
    initial part of the expected list. *)
Lemma setup_any config p r st :
  setup config p (init_state p) = (r, st) →
  stdout st = "" ∧ ∃ k, loaded st = take k (expected_loads config).
Proof.
  unfold setup. intros H.
  apply bind_inv in H as [(e & H1 & _)|([] & st1 & H1 & H)];
    rewrite include_loop in H1; [done|].
  inversion H1 as [Hst1]; clear H1.
  assert (loaded st1 = [] ∧ stdout st1 = "") as (Hl1 & Ho1) by (by subst st1).
  clear Hst1.
  apply bind_inv in H as [(e & H2 & _)|(m & st2 & H2 & H)].
  { apply load_module_from_file_spec in H2 as [(_ & -> & _)|(body & _ & [] & Hl2 & _)].
    - split; [done|]. exists 0. by rewrite take_0.
    - split; [congruence|]. exists 1. rewrite Hl2, Hl1. simpl. by rewrite take_0. }
  apply load_module_from_file_spec in H2 as [(_ & _ & ?)|(body & _ & [] & Hl2 & _)];
    [done|].
  assert (loaded st2 = [("spec", specfile config)]) as Hl2' by (by rewrite Hl2, Hl1).
  apply bind_inv in H as [(e & H3 & _)|([] & st3 & H3 & H)].
  { apply load_extras_any in H3 as ([] & k & Hk).
    split; [congruence|]. exists (S k). by rewrite Hk, Hl2'. }
  apply load_extras_any in H3 as ([] & k & Hk).
  apply bind_inv in H as [(e & H4 & ?)|(env & st4 & H4 & H)].
  { apply new_Environment_spec in H4 as (g & f & ? & _). done. }
  apply new_Environment_spec in H4 as (g & f & _ & _ & _ & _ & _ & _ & _ & _ & Hl4 & Ho4).
  apply bind_inv in H as [(e & H5 & ?)|([] & st5 & H5 & H)].
  { by apply dict_update_spec in H5 as (? & _). }
  apply dict_update_spec in H5 as (_ & _ & _ & _ & Hl5 & Ho5).
  apply bind_inv in H as [(e & H6 & ?)|([] & st6 & H6 & H)].
  { by apply dict_update_spec in H6 as (? & _). }
  apply dict_update_spec in H6 as (_ & _ & _ & _ & Hl6 & Ho6).
  edestruct definitions_loop as (st' & Hloop & _ & Hl' & Ho' & _).
  apply bind_inv in H as [(e & H7 & ?)|([] & st7 & H7 & H)];
    rewrite Hloop in H7; [done|].
  inversion H7; subst st'; clear H7 Hloop. inversion H; subst; clear H.
  split; [congruence|].
  exists (S k). rewrite Hl', Hl6, Hl5, Hl4, Hk, Hl2'. done.
Qed.

(** ** The template engine *)

Lemma get_template_state p env name st r st' :
  jinja2.get_template p env name st = (r, st') → st' = st.
Proof.
  unfold jinja2.get_template.
  destruct (jinjautil.get_source _ _ _) as [[contents path]|]; [|by inversion 1].
  destruct (jinja2.parse _) as [pieces|]; [|by inversion 1].
  unfold bind, get_state.
  destruct (jinja2.unknown_filter _ _); by inversion 1.
Qed.

Lemma render_state t st r st' :
  jinja2.render t st = (r, st') → st' = st.
Proof.
  unfold jinja2.render, bind, get_state.
  destruct (jinja2.render_pieces _ _ _); by inversion 1.
Qed.

(** Text leaves the process in one piece, after the template has been
    found, compiled and rendered to its end. *)
Lemma run_outcome config p r st :
  run config p = (r, st) →
  match r with
  | Raise _ => stdout st = ""
  | Ok _ =>
      ∃ env st0 t,
        setup config p (init_state p) = (Ok env, st0)
        ∧ jinja2.get_template p env (templatefile config) st0 = (Ok t, st0)
        ∧ jinja2.render t st0 = (Ok (stdout st), st0)
  end.
Proof.
  unfold run, main. intros H.
  apply bind_inv in H as [(e & H1 & ->)|(env & st1 & H1 & H)].
  { by apply setup_any in H1 as [? _]. }
  pose proof (setup_any _ _ _ _ H1) as [Ho1 _].
  apply bind_inv in H as [(e & H2 & ->)|(t & st2 & H2 & H)].
  { apply get_template_state in H2. by subst. }
  pose proof (get_template_state _ _ _ _ _ _ H2) as ->.
  apply bind_inv in H as [(e & H3 & ->)|(text & st3 & H3 & H)].
  { apply render_state in H3. by subst. }
  pose proof (render_state _ _ _ _ H3) as ->.
  inversion H; subst; clear H. simpl.
  exists env, st1, t. rewrite Ho1. done.
Qed.

(** ** Binding sources and their precedence *)

Lemma unit_exports_lookup name body d :
  unit_exports body d !! name =
  match last_export name body with Some v => Some v | None => d !! name end.
Proof.
  revert d. induction body as [|s body IH]; intros d; [done|].
  destruct s as [n v|n v|n v|]; simpl; [|..|done];
    rewrite IH; destruct (last_export name body); try done.
  destruct (decide (n = name)) as [->|Hne].
  - by rewrite lookup_insert_eq.
  - by rewrite lookup_insert_ne.
Qed.

Lemma registry_lookup_correct name bodies d :
  foldl (λ d body, unit_exports body d) d bodies !! name =
  foldl (λ acc body, match last_export name body with Some v => Some v | None => acc end)
        (d !! name) bodies.
Proof.
  revert d. induction bodies as [|body bodies IH]; intros d; [done|].
  simpl. by rewrite IH, unit_exports_lookup.
Qed.

(** C1, as the code has it.  The environment's globals have three
    sources and no more: jinja2's default namespace, the registry
    [jinjautil.exports] as the units left it (a unit's registration
    replaces what the registry held for that name, later units replace
    earlier ones), and the [-D] definitions.  On a collision a
    definition wins over the registry, and the registry over the
    default.  The names a unit binds at its top level are not a source:
    they enter the environment only if the unit registers them. *)
Theorem globals_from_registry_then_definitions config p env st name :
  setup config p (init_state p) = (Ok env, st) →
  deref (heap st) (jinja2.globals env) !! name =
  match last_definition name (definitions config) with
  | Some v => Some (PStr v)
  | None =>
      match registry_lookup config p name with
      | Some v => Some v
      | None => DEFAULT_NAMESPACE p !! name
      end
  end.
Proof.
  intros H. apply setup_ok in H as [].
  rewrite sp_env_globals0.
  destruct (last_definition name (definitions config)); [done|].
  rewrite lookup_union, sp_exports0, registry_lookup_correct.
  fold (registry_lookup config p name).
  destruct (registry_lookup config p name), (DEFAULT_NAMESPACE p !! name); done.
Qed.

Lemma globals_from_registry_then_definitions_witness :
  setup Sample.config Sample.process (init_state Sample.process)
  = (Ok Sample.env, Sample.setup_state Sample.config)
  ∧ deref (heap (Sample.setup_state Sample.config)) (jinja2.globals Sample.env) !! "nodes"
    = match last_definition "nodes" (definitions Sample.config) with
      | Some v => Some (PStr v)
      | None =>
          match registry_lookup Sample.config Sample.process "nodes" with
          | Some v => Some v
          | None => DEFAULT_NAMESPACE Sample.process !! "nodes"
          end
      end.
Proof.
  split; [vm_compute; reflexivity|].
  apply (globals_from_registry_then_definitions Sample.config Sample.process Sample.env).
  vm_compute; reflexivity.
Defined.

(** C1, as stated, fails: the specification unit of the sample binds
    [NAME] to ["x"] at its top level, the registry binds [NAME] to
    ["reg"], and the environment binds [NAME] to ["reg"]. *)
Lemma unit_names_do_not_shadow_registry : ¬ unit_names_shadow_registry.
Proof.
  intros H.
  specialize (H Sample.config Sample.process Sample.env
                (Sample.setup_state Sample.config)
                {| mod_name := "spec";
                   mod_namespace := <["NAME" := PStr "x"]> {["__name__" := PStr "spec"]} |}
                (load_module_from_file Sample.process "spec" "spec.py"
                   (init_state Sample.process)).2
                "NAME" (PStr "x")).
  assert (deref (heap (Sample.setup_state Sample.config))
                (jinja2.globals Sample.env) !! "NAME" = Some (PStr "reg")) as Hreg
    by (vm_compute; reflexivity).
  rewrite Hreg in H.
  assert (Some (PStr "reg") = Some (PStr "x")) as Habs; [|discriminate Habs].
  apply H; try (vm_compute; reflexivity).
  exists (PStr "reg"). reflexivity.
Qed.



(** ** Search paths *)

(** The loop over the include directories puts every directory at
    position 1 of [sys.path], so the directories end up behind the first
    entry in the reverse of the order given. *)
Lemma sys_path_after_setup config p env st first others :
  setup config p (init_state p) = (Ok env, st) →
  proc_sys_path p = first :: others →
  sys_path st = first :: rev (includedirs config) ++ others.
Proof.
  intros H Hp. apply setup_ok in H as [].
  by rewrite sp_sys_path0, Hp, list_insert_at_1_loop.
Qed.

(** X13.  The template loader gets the directories behind its own, in
    the order given. *)
Lemma loader_after_setup config p env st :
  setup config p (init_state p) = (Ok env, st) →
  jinjautil.includedirs (jinja2.loader env) = proc_loader_dirs p ++ includedirs config.
Proof. intros H. apply setup_ok in H as []. by rewrite sp_loader0. Qed.

(** C3, at the command line [-I /tpl_a -I /tpl_b]: the template loader
    lists [/tpl_a] before [/tpl_b], and [sys.path] lists [/tpl_b] before
    [/tpl_a]. *)
Theorem include_dirs_reversed_in_sys_path :
  includedirs Sample.config = ["/tpl_a"; "/tpl_b"]
  ∧ setup Sample.config Sample.process (init_state Sample.process)
    = (Ok Sample.env, Sample.setup_state Sample.config)
  ∧ jinjautil.includedirs (jinja2.loader Sample.env) = [""; "/tpl_a"; "/tpl_b"]
  ∧ sys_path (init_state Sample.process) = ["/scripts"; "/usr/lib/python3"]
  ∧ sys_path (Sample.setup_state Sample.config)
    = ["/scripts"; "/tpl_b"; "/tpl_a"; "/usr/lib/python3"].
Proof. split_and!; vm_compute; reflexivity. Qed.

(** ** Failure and output *)

(** C4.  A run that fails, at whatever stage, has written nothing to
    standard output; in particular when the template cannot be found,
    does not compile, or fails while it is rendered. *)
Theorem no_output_on_failure config p e st :
  run config p = (Raise e, st) → stdout st = "".
Proof. intros H. by apply run_outcome in H. Qed.

Lemma no_output_on_failure_witness :
  run (Sample.with_template "raise.tmpl") Sample.process
  = (Raise (FilterRaised "broken"),
     (run (Sample.with_template "raise.tmpl") Sample.process).2)
  ∧ stdout (run (Sample.with_template "raise.tmpl") Sample.process).2 = "".
Proof.
  split; [vm_compute; reflexivity|].
  apply (no_output_on_failure (Sample.with_template "raise.tmpl") Sample.process
           (FilterRaised "broken")).
  vm_compute; reflexivity.
Defined.

Example no_output_on_unknown_filter :
  run (Sample.with_template "bad.tmpl") Sample.process
  = (Raise (TemplateAssertionError "nofilter"), Sample.setup_state Sample.config).
Proof. vm_compute; reflexivity. Qed.

Example no_output_on_missing_template :
  run (Sample.with_template "none.tmpl") Sample.process
  = (Raise (TemplateNotFound "none.tmpl"), Sample.setup_state Sample.config).
Proof. vm_compute; reflexivity. Qed.

(** A failure while rendering comes after text has been produced, and
    the text is dropped with it. *)
Lemma render_pieces_failure_drops_text gd fd s pc pieces e :
  jinja2.render_piece gd fd pc = Raise e →
  jinja2.render_pieces gd fd (jinja2.PData s :: pc :: pieces) = Raise e.
Proof. intros H. simpl. by rewrite H. Qed.

(** A run that succeeds has written the rendered text, once. *)
Lemma output_on_success config p st :
  run config p = (Ok tt, st) →
  ∃ env st0 t,
    setup config p (init_state p) = (Ok env, st0)
    ∧ jinja2.get_template p env (templatefile config) st0 = (Ok t, st0)
    ∧ jinja2.render t st0 = (Ok (stdout st), st0).
Proof. intros H. by apply run_outcome in H. Qed.

(** ** The filter namespace *)

Lemma definitions_frame env defs st r st' :
  for_each defs (apply_definition env) st = (r, st') →
  r = Ok tt
  ∧ (∀ l, l ≠ jinja2.globals env → heap st' !! l = heap st !! l)
  ∧ sys_path st' = sys_path st ∧ loaded st' = loaded st ∧ stdout st' = stdout st.
Proof.
  intros H.
  destruct (definitions_loop env defs st) as (st1 & Hloop & Hp & Hl & Ho & Hframe & _).
  rewrite Hloop in H. inversion H; subst. done.
Qed.

(** C5.  In the environment the driver builds, the globals and the
    filters are two dictionaries; the loop over the definitions, run on
    any definitions from any state, changes no object of the store but
    the globals, so it leaves the filters and the registry as they
    were; and the filters the template is rendered with are the
    registry's over jinja2's defaults, whatever was defined. *)
Theorem definitions_leave_filters config p env st :
  setup config p (init_state p) = (Ok env, st) →
  jinja2.globals env ≠ jinja2.filters env
  ∧ (∀ defs st0 r st1,
       for_each defs (apply_definition env) st0 = (r, st1) →
       deref (heap st1) (jinja2.filters env) = deref (heap st0) (jinja2.filters env)
       ∧ ∀ l, l ≠ jinja2.globals env → heap st1 !! l = heap st0 !! l)
  ∧ deref (heap st) (jinja2.filters env) =
    foldl (λ d body, unit_filters body d) (proc_filters p) (unit_bodies config p)
    ∪ DEFAULT_FILTERS p.
Proof.
  intros H. apply setup_ok in H as [].
  assert (jinja2.globals env ≠ jinja2.filters env) as Hne.
  { intros Heq. rewrite Heq in sp_refs0.
    apply NoDup_cons in sp_refs0 as [_ Hnd]. apply NoDup_cons in Hnd as [_ Hnd].
    apply NoDup_cons in Hnd as [Hnot _]. apply Hnot. by left. }
  split_and!; [done| |by rewrite sp_env_filters0, sp_filters0].
  intros defs st0 r st1 Hloop.
  apply definitions_frame in Hloop as (_ & Hframe & _).
  split; [|done]. unfold deref. by rewrite Hframe.
Qed.

Lemma definitions_leave_filters_witness :
  setup Sample.override_config Sample.process (init_state Sample.process)
  = (Ok Sample.env, Sample.setup_state Sample.override_config)
  ∧ jinja2.globals Sample.env ≠ jinja2.filters Sample.env
  ∧ deref (heap (Sample.setup_state Sample.override_config)) (jinja2.filters Sample.env)
    = deref (heap (Sample.setup_state Sample.config)) (jinja2.filters Sample.env).
Proof.
  split; [vm_compute; reflexivity|].
  destruct (definitions_leave_filters Sample.override_config Sample.process Sample.env
              (Sample.setup_state Sample.override_config)) as (Hne & _ & Hf).
  - vm_compute; reflexivity.
  - split; [exact Hne|]. rewrite Hf. vm_compute; reflexivity.
Defined.

(** A definition named like a filter binds a global of that name and
    the filter stays in place. *)
Example definition_named_like_a_filter :
  deref (heap (Sample.setup_state (Sample.with_definitions ["wrap=x"])))
        (jinja2.filters Sample.env) !! "wrap" = Some (PFun Sample.wrap)
  ∧ deref (heap (Sample.setup_state (Sample.with_definitions ["wrap=x"])))
          (jinja2.globals Sample.env) !! "wrap" = Some (PStr "x").
Proof. split; vm_compute; reflexivity. Qed.

(** ** Loading order *)




(** ** Template resolution *)

Lemma resolve_first_match files dirs name contents path :
  jinjautil.resolve files dirs name = Some (contents, path) ↔
  ∃ pre d post,
    dirs = pre ++ d :: post
    ∧ Forall (λ d', files !! jinjautil.join d' name = None) pre
    ∧ path = jinjautil.join d name
    ∧ files !! path = Some contents.
Proof.
  induction dirs as [|d dirs IH]; simpl.
  - split; [done|]. intros (pre & d & post & H & _). by destruct pre.
  - destruct (files !! jinjautil.join d name) as [c|] eqn:Hd.
    + split.
      * intros [= <- <-]. exists [], d, dirs. by split_and!.
      * intros (pre & d0 & post & Hdirs & Hpre & Hpath & Hc).
        destruct pre as [|d' pre]; simpl in Hdirs; injection Hdirs as <- ->.
        -- subst path. rewrite Hd in Hc. by injection Hc as ->.
        -- apply Forall_cons in Hpre as [Hnone _]. congruence.
    + rewrite IH. split.
      * intros (pre & d0 & post & -> & Hpre & -> & Hc).
        exists (d :: pre), d0, post. split_and!; try done. by constructor.
      * intros (pre & d0 & post & Hdirs & Hpre & Hpath & Hc).
        destruct pre as [|d' pre]; simpl in Hdirs; injection Hdirs as <- ->.
        -- subst path. congruence.
        -- apply Forall_cons in Hpre as [_ Hpre]. by exists pre, d0, post.
Qed.

(** C7.  Resolution walks the search path in order and returns the
    contents of the first directory that holds the name: the answer is
    the file of a directory such that no directory before it holds the
    name; so when the first directory holds the name its file is the
    answer, whatever the later directories hold. *)
Theorem first_match_wins files self name :
  (∀ d rest contents,
     jinjautil.includedirs self = d :: rest →
     files !! jinjautil.join d name = Some contents →
     jinjautil.get_source files self name = Some (contents, jinjautil.join d name))
  ∧ (∀ contents path,
       jinjautil.get_source files self name = Some (contents, path) ↔
       ∃ pre d post,
         jinjautil.includedirs self = pre ++ d :: post
         ∧ Forall (λ d', files !! jinjautil.join d' name = None) pre
         ∧ path = jinjautil.join d name
         ∧ files !! path = Some contents)
  ∧ (jinjautil.get_source files self name = None ↔
     Forall (λ d, files !! jinjautil.join d name = None) (jinjautil.includedirs self)).
Proof.
  unfold jinjautil.get_source. split_and!.
  - intros d rest contents -> Hd. simpl. by rewrite Hd.
  - intros contents path. apply resolve_first_match.
  - induction (jinjautil.includedirs self) as [|d dirs IH]; simpl.
    + split; [by constructor|done].
    + destruct (files !! jinjautil.join d name) eqn:Hd.
      * split; [done|]. intros H. apply Forall_cons in H as [H _]. congruence.
      * rewrite IH. split; [by constructor|]. intros H. by apply Forall_cons in H as [_ H].
Qed.

Lemma first_match_wins_witness :
  text_files Sample.process !! jinjautil.join "/tpl_a" "out.tmpl" = Some "A {{ NAME }} {{ nodes|wrap }}
"
  ∧ text_files Sample.process !! jinjautil.join "/tpl_b" "out.tmpl" = Some "B
"
  ∧ jinjautil.get_source (text_files Sample.process)
      {| jinjautil.includedirs := ["/tpl_a"; "/tpl_b"] |} "out.tmpl"
    = Some ("A {{ NAME }} {{ nodes|wrap }}
", "/tpl_a/out.tmpl").
Proof.
  split; [vm_compute; reflexivity|]. split; [vm_compute; reflexivity|].
  destruct (first_match_wins (text_files Sample.process)
              {| jinjautil.includedirs := ["/tpl_a"; "/tpl_b"] |} "out.tmpl") as (H & _).
  apply (H "/tpl_a" ["/tpl_b"]).
  - reflexivity.
  - vm_compute; reflexivity.
Defined.

(** ** The registry after the snapshot *)

Lemma get_template_depends_on_filters p env name st st' :
  deref (heap st') (jinja2.filters env) = deref (heap st) (jinja2.filters env) →
  (jinja2.get_template p env name st').1 = (jinja2.get_template p env name st).1.
Proof.
  intros Hf. unfold jinja2.get_template.
  destruct (jinjautil.get_source _ _ _) as [[contents path]|]; [|done].
  destruct (jinja2.parse _) as [pieces|]; [|done].
  unfold bind, get_state. rewrite Hf.
  by destruct (jinja2.unknown_filter _ _).
Qed.

Lemma render_depends_on_env t st st' :
  deref (heap st') (jinja2.globals (jinja2.environment t))
    = deref (heap st) (jinja2.globals (jinja2.environment t)) →
  deref (heap st') (jinja2.filters (jinja2.environment t))
    = deref (heap st) (jinja2.filters (jinja2.environment t)) →
  (jinja2.render t st').1 = (jinja2.render t st).1.
Proof.
  intros Hg Hf. unfold jinja2.render, bind, get_state. rewrite Hg, Hf.
  by destruct (jinja2.render_pieces _ _ _).
Qed.

(** C8.  After the driver has copied the registry into the
    environment, code that writes to the registry, any sequence of
    registrations of globals and filters, leaves the environment's two
    dictionaries as they are, and with them the outcome of looking up
    and of rendering any template in that environment. *)
Theorem registry_writes_after_snapshot config p env st module_name body ns r st' :
  setup config p (init_state p) = (Ok env, st) →
  exec_module module_name body ns st = (r, st') →
  deref (heap st') (jinja2.globals env) = deref (heap st) (jinja2.globals env)
  ∧ deref (heap st') (jinja2.filters env) = deref (heap st) (jinja2.filters env)
  ∧ (∀ name, (jinja2.get_template p env name st').1 = (jinja2.get_template p env name st).1)
  ∧ (∀ t, jinja2.environment t = env → (jinja2.render t st').1 = (jinja2.render t st).1).
Proof.
  intros H Hexec. apply setup_ok in H as [].
  apply exec_module_spec in Hexec as ([_ _ Hothers _] & _).
  apply NoDup_cons in sp_refs0 as [Hn1 Hnd]. apply NoDup_cons in Hnd as [Hn2 _].
  assert (deref (heap st') (jinja2.globals env) = deref (heap st) (jinja2.globals env)) as Hg.
  { unfold deref. rewrite Hothers; [done|intros Heq; rewrite Heq in *..].
    - apply Hn1. set_solver.
    - apply Hn2. set_solver. }
  assert (deref (heap st') (jinja2.filters env) = deref (heap st) (jinja2.filters env)) as Hf.
  { unfold deref. rewrite Hothers; [done|intros Heq; rewrite Heq in *..].
    - apply Hn1. set_solver.
    - apply Hn2. set_solver. }
  split_and!; try done.
  - intros name. by apply get_template_depends_on_filters.
  - intros t <-. by apply render_depends_on_env.
Qed.

Lemma registry_writes_after_snapshot_witness :
  setup Sample.config Sample.process (init_state Sample.process)
  = (Ok Sample.env, Sample.setup_state Sample.config)
  ∧ deref (heap (exec_module "late" Sample.late_writes ∅
                   (Sample.setup_state Sample.config)).2) jinjautil.exports !! "NAME"
    = Some (PStr "late")
  ∧ deref (heap (exec_module "late" Sample.late_writes ∅
                   (Sample.setup_state Sample.config)).2) (jinja2.globals Sample.env)
    = deref (heap (Sample.setup_state Sample.config)) (jinja2.globals Sample.env)
  ∧ deref (heap (exec_module "late" Sample.late_writes ∅
                   (Sample.setup_state Sample.config)).2) (jinja2.filters Sample.env)
    = deref (heap (Sample.setup_state Sample.config)) (jinja2.filters Sample.env).
Proof.
  split; [vm_compute; reflexivity|]. split; [vm_compute; reflexivity|].
  destruct (registry_writes_after_snapshot Sample.config Sample.process Sample.env
              (Sample.setup_state Sample.config) "late" Sample.late_writes ∅ (Ok ∅)
              (exec_module "late" Sample.late_writes ∅ (Sample.setup_state Sample.config)).2)
    as (Hg & Hf & _).
  - vm_compute; reflexivity.
  - vm_compute; reflexivity.
  - by split.
Defined.

(** ** The text of a definition *)

(** C9.  A definition is cut at its first [=].  Without any [=] the
    whole text is the name and the value is the empty string; with a
    name free of [=] in front of the first [=], everything behind that
    [=] is the value, further [=] included. *)
Theorem definition_split_at_first_equals env st :
  (∀ d, contains "="%char d = false →
     partition "="%char d = (d, "", "")
     ∧ deref (heap (apply_definition env d st).2) (jinja2.globals env) !! d
       = Some (PStr ""))
  ∧ (∀ name rest, contains "="%char name = false →
       partition "="%char (name +:+ "=" +:+ rest) = (name, "=", rest)
       ∧ deref (heap (apply_definition env (name +:+ "=" +:+ rest) st).2)
               (jinja2.globals env) !! name
         = Some (PStr rest))
  ∧ (∀ name a b, contains "="%char name = false →
       deref (heap (apply_definition env (name +:+ "=" +:+ a +:+ "=" +:+ b) st).2)
             (jinja2.globals env) !! name
       = Some (PStr (a +:+ "=" +:+ b))).
Proof.
  assert (∀ name rest, contains "="%char name = false →
            partition "="%char (name +:+ "=" +:+ rest) = (name, "=", rest)
            ∧ deref (heap (apply_definition env (name +:+ "=" +:+ rest) st).2)
                    (jinja2.globals env) !! name
              = Some (PStr rest)) as Hsplit.
  { intros name rest Hname.
    pose proof (partition_first_sep "="%char name rest Hname) as Hp.
    change ("=" +:+ rest) with (String "="%char rest).
    split; [done|]. rewrite apply_definition_eq.
    unfold definition_name, definition_value. rewrite Hp. simpl.
    by rewrite deref_insert_eq, lookup_insert_eq. }
  split_and!; [|done|].
  - intros d Hd. pose proof (partition_no_sep _ _ Hd) as Hp.
    split; [done|]. unfold apply_definition. rewrite Hp. simpl.
    by rewrite deref_insert_eq, lookup_insert_eq.
  - intros name a b Hname. by apply Hsplit.
Qed.

Lemma definition_split_at_first_equals_witness :
  contains "="%char "X" = false
  ∧ contains "="%char "NAME" = false
  ∧ deref (heap (apply_definition Sample.env "X" (Sample.setup_state Sample.config)).2)
          (jinja2.globals Sample.env) !! "X" = Some (PStr "")
  ∧ deref (heap (apply_definition Sample.env "NAME=A=B" (Sample.setup_state Sample.config)).2)
          (jinja2.globals Sample.env) !! "NAME" = Some (PStr "A=B").
Proof.
  split; [reflexivity|]. split; [reflexivity|].
  destruct (definition_split_at_first_equals Sample.env (Sample.setup_state Sample.config))
    as (Hnone & _ & Htwo).
  split.
  - apply (Hnone "X"). reflexivity.
  - apply (Htwo "NAME" "A" "B"). reflexivity.
Defined.

(** ** The trailing newline *)















(** What the driver writes for the sample, and what an environment
    without the flag would render from the same template. *)
Example sample_output :
  stdout (run Sample.config Sample.process).2 = "A reg <4>
".
Proof. vm_compute; reflexivity. Qed.

Example newline_lost_without_the_flag :
  (t ← match jinja2.get_template Sample.process Sample.stripping_env "out.tmpl"
               (Sample.setup_state Sample.config) with
       | (Ok t, _) => Some t
       | _ => None
       end;
   Some (jinja2.render t (Sample.setup_state Sample.config)).1)
  = Some (Ok "A reg <4>").
Proof. vm_compute; reflexivity. Qed.

(** * Further properties of the driver *)

(** ** The outcome of loading a unit *)








(** ** The state at any outcome *)

Lemma extra_loads_paths start extras : (extra_loads start extras).*2 = extras.
Proof.
  revert start. induction extras as [|path extras IH]; intros start; [done|].
  rewrite extra_loads_cons. simpl. by rewrite IH.
Qed.

Lemma body_of_file p path body : py_files p !! path = Some body → body_of p path = body.
Proof. unfold body_of. by intros ->. Qed.

(** The loop over the extra units: at any outcome the units executed
    are the first [k] of the list, and the registry holds their writes. *)
Lemma load_extras_record p extras start st r st' :
  for_enumerate start extras (load_extra p) st = (r, st') →
  ∃ k, loaded st' = loaded st ++ take k (extra_loads start extras)
       ∧ deref (heap st') jinjautil.exports
         = exports_after p (take k extras) (deref (heap st) jinjautil.exports)
       ∧ deref (heap st') jinjautil.filters
         = filters_after p (take k extras) (deref (heap st) jinjautil.filters).
Proof.
  revert start st. induction extras as [|path extras IH]; intros start st H.
  - inversion H; subst. exists 0. by rewrite app_nil_r.
  - simpl in H. apply bind_inv in H as [(e & H & ->)|(a & st1 & H & Hrest)];
      unfold load_extra in H.
    + apply bind_inv in H as [(e' & H & _)|(m & st2 & H & Hret)]; [|by inversion Hret].
      apply load_module_from_file_spec in H
        as [(_ & -> & _)|(body & Hfile & _ & Hl & He & Hf)].
      * exists 0. by rewrite app_nil_r.
      * exists 1. rewrite extra_loads_cons. simpl.
        unfold exports_after, filters_after. simpl.
        by rewrite (body_of_file _ _ _ Hfile).
    + apply bind_ok_inv in H as (m & st2 & H & Hret). inversion Hret; subst.
      apply load_module_from_file_spec in H
        as [(_ & _ & ?)|(body & Hfile & _ & Hl & He & Hf)]; [done|].
      apply IH in Hrest as (k & Hk & He' & Hf').
      exists (S k). rewrite extra_loads_cons. simpl.
      unfold exports_after, filters_after in *. simpl.
      rewrite (body_of_file _ _ _ Hfile), Hk, Hl, He', Hf', He, Hf.
      by rewrite <- app_assoc.
Qed.

(** The driver's first part at any outcome: where [sys.path] stands,
    and that the registry holds the writes of the units in the load
    record, and nothing else, on top of what it held at the start. *)
Lemma setup_record config p r st :
  setup config p (init_state p) = (r, st) →
  sys_path st = sys_path_after (includedirs config) (proc_sys_path p)
  ∧ deref (heap st) jinjautil.exports
    = exports_after p (loaded st).*2 (proc_exports p)
  ∧ deref (heap st) jinjautil.filters
    = filters_after p (loaded st).*2 (proc_filters p).
Proof.
  unfold setup. intros H.
  destruct (init_state_registry p) as (He0 & Hfi0 & Hin1 & Hin2).
  apply bind_inv in H as [(e & H1 & _)|([] & st1 & H1 & H)];
    rewrite include_loop in H1; [done|].
  inversion H1 as [Hst1]; clear H1.
  assert (heap st1 = heap (init_state p) ∧ loaded st1 = []
          ∧ sys_path st1 = sys_path_after (includedirs config) (proc_sys_path p))
    as (Hh1 & Hl1 & Hp1) by (by subst st1).
  clear Hst1.
  apply bind_inv in H as [(e & H2 & _)|(m & st2 & H2 & H)].
  { apply load_module_from_file_spec in H2
      as [(_ & -> & _)|(body & Hfile & [] & Hl2 & He2 & Hf2)].
    - rewrite Hl1, Hh1. by split_and!.
    - rewrite Hl2, Hl1. unfold exports_after, filters_after. simpl.
      rewrite (body_of_file _ _ _ Hfile), He2, Hf2, Hh1, He0, Hfi0.
      split_and!; [congruence|done..]. }
  apply load_module_from_file_spec in H2
    as [(_ & _ & ?)|(body & Hfile & [Hp2 _ _ Hd2] & Hl2 & He2 & Hf2)]; [done|].
  rewrite Hh1 in *.
  assert (∀ st3 k,
            loaded st3 = loaded st2 ++ take k (extra_loads 0 (extra config)) →
            deref (heap st3) jinjautil.exports
              = exports_after p (take k (extra config)) (deref (heap st2) jinjautil.exports) →
            deref (heap st3) jinjautil.filters
              = filters_after p (take k (extra config)) (deref (heap st2) jinjautil.filters) →
            deref (heap st3) jinjautil.exports = exports_after p (loaded st3).*2 (proc_exports p)
            ∧ deref (heap st3) jinjautil.filters
              = filters_after p (loaded st3).*2 (proc_filters p)) as Hrec.
  { intros st3 k Hl3 He3 Hf3.
    rewrite Hl3, Hl2, Hl1, He3, Hf3, He2, Hf2, He0, Hfi0. simpl.
    rewrite fmap_take, extra_loads_paths.
    unfold exports_after, filters_after. simpl.
    by rewrite (body_of_file _ _ _ Hfile). }
  apply bind_inv in H as [(e & H3 & _)|([] & st3 & H3 & H)].
  { pose proof (load_extras_any _ _ _ _ _ _ H3) as [[Hp3 _ _ _] _].
    apply load_extras_record in H3 as (k & Hl3 & He3 & Hf3).
    split; [congruence|]. by eapply Hrec. }
  pose proof (load_extras_any _ _ _ _ _ _ H3) as [[Hp3 _ _ Hd3] _].
  apply load_extras_record in H3 as (k & Hl3 & He3 & Hf3).
  destruct (Hrec st3 k Hl3 He3 Hf3) as [Hre Hrf].
  assert (jinjautil.exports ∈ dom (heap st3) ∧ jinjautil.filters ∈ dom (heap st3))
    as [Hi1 Hi2] by (split; apply Hd3, Hd2; done).
  apply bind_inv in H as [(e & H4 & ?)|(env & st4 & H4 & H)].
  { apply new_Environment_spec in H4 as (g & f & ? & _). done. }
  apply new_Environment_spec in H4
    as (g & f & Henv & Hg & Hf & Hgf & _ & _ & D4 & Hp4 & Hl4 & _).
  inversion Henv; subst env; clear Henv. simpl in H.
  assert (g ≠ jinjautil.exports) as Hg1 by (intros ->; done).
  assert (g ≠ jinjautil.filters) as Hg2 by (intros ->; done).
  assert (f ≠ jinjautil.exports) as Hf1 by (intros ->; done).
  assert (f ≠ jinjautil.filters) as Hf2' by (intros ->; done).
  apply bind_inv in H as [(e & H5 & ?)|([] & st5 & H5 & H)].
  { by apply dict_update_spec in H5 as (? & _). }
  apply dict_update_spec in H5 as (_ & _ & D5 & Hp5 & Hl5 & _).
  apply bind_inv in H as [(e & H6 & ?)|([] & st6 & H6 & H)].
  { by apply dict_update_spec in H6 as (? & _). }
  apply dict_update_spec in H6 as (_ & _ & D6 & Hp6 & Hl6 & _).
  edestruct definitions_loop as (st' & Hloop & Hp' & Hl' & _ & Hframe & _).
  apply bind_inv in H as [(e & H7 & ?)|([] & st7 & H7 & H)];
    rewrite Hloop in H7; [done|].
  inversion H7; subst st'; clear H7 Hloop. inversion H; subst; clear H.
  simpl in Hframe.
  assert (∀ l, l ≠ g → deref (heap st) l = deref (heap st6) l) as D7.
  { intros l Hne. unfold deref. by rewrite Hframe. }
  rewrite Hp', Hp6, Hp5, Hp4, Hp3, Hp2, Hl', Hl6, Hl5, Hl4.
  rewrite !D7, !D6, !D5, !D4 by done.
  by rewrite Hre, Hrf.
Qed.

Lemma run_state config p r st :
  run config p = (r, st) →
  ∃ r0 st0,
    setup config p (init_state p) = (r0, st0)
    ∧ heap st = heap st0 ∧ loaded st = loaded st0 ∧ sys_path st = sys_path st0
    ∧ (∀ e, r0 = Raise e → r = Raise e ∧ st = st0).
Proof.
  unfold run, main. intros H.
  apply bind_inv in H as [(e & H1 & ->)|(env & st1 & H1 & H)].
  { exists (Raise e), st. split_and!; try done. by intros e' [= ->]. }
  exists (Ok env), st1. split; [done|].
  apply bind_inv in H as [(e & H2 & ->)|(t & st2 & H2 & H)].
  { apply get_template_state in H2. by subst. }
  pose proof (get_template_state _ _ _ _ _ _ H2) as ->.
  apply bind_inv in H as [(e & H3 & ->)|(text & st3 & H3 & H)].
  { apply render_state in H3. by subst. }
  pose proof (render_state _ _ _ _ H3) as ->.
  by inversion H; subst.
Qed.

Lemma sys_path_after_perm dirs path : sys_path_after dirs path ≡ₚ dirs ++ path.
Proof.
  unfold sys_path_after. destruct path as [|x l].
  - rewrite app_nil_r. destruct dirs as [|d dirs]; [done|].
    rewrite list_insert_at_1_loop_nil. constructor. symmetry. apply Permutation_rev.
  - rewrite list_insert_at_1_loop.
    rewrite <- Permutation_middle. constructor.
    apply Permutation_app_tail. symmetry. apply Permutation_rev.
Qed.

(** X1.  At any outcome of the run, [sys.path] holds what it held at the
    start together with the include directories, nothing lost and
    nothing else added.  Its first entry stays first, the include
    directories follow it in the reverse of the order given, and the
    other old entries come last; were [sys.path] empty at the start, the
    first directory given would stay first and the others follow it in
    reverse. *)
Theorem sys_path_rearranged config p r st :
  run config p = (r, st) →
  sys_path st ≡ₚ includedirs config ++ proc_sys_path p
  ∧ (∀ first others, proc_sys_path p = first :: others →
       sys_path st = first :: rev (includedirs config) ++ others)
  ∧ (∀ d dirs, proc_sys_path p = [] → includedirs config = d :: dirs →
       sys_path st = d :: rev dirs).
Proof.
  intros H. apply run_state in H as (r0 & st0 & H & _ & _ & -> & _).
  apply setup_record in H as (-> & _).
  split_and!.
  - apply sys_path_after_perm.
  - intros first others ->. apply list_insert_at_1_loop.
  - intros d dirs -> ->. apply list_insert_at_1_loop_nil.
Qed.

Lemma sys_path_rearranged_witness :
  run Sample.config Sample.process = (Ok tt, Probe.final_state Sample.config Sample.process)
  ∧ sys_path (Probe.final_state Sample.config Sample.process)
    = "/scripts" :: rev ["/tpl_a"; "/tpl_b"] ++ ["/usr/lib/python3"].
Proof.
  split; [vm_compute; reflexivity|].
  destruct (sys_path_rearranged Sample.config Sample.process (Ok tt)
              (Probe.final_state Sample.config Sample.process)) as (_ & H & _).
  - vm_compute; reflexivity.
  - apply (H "/scripts" ["/usr/lib/python3"]). reflexivity.
Defined.

(** X2.  At any outcome of the run the registry holds what it held at
    the start overwritten by the registrations of the units in the load
    record, in the order they were executed, a unit that raised
    contributing what it registered before the raise.  Nothing else
    writes to the registry: not the construction of the environment and
    not the definitions. *)
Theorem registry_follows_load_record config p r st :
  run config p = (r, st) →
  deref (heap st) jinjautil.exports = exports_after p (loaded st).*2 (proc_exports p)
  ∧ deref (heap st) jinjautil.filters = filters_after p (loaded st).*2 (proc_filters p).
Proof.
  intros H. apply run_state in H as (r0 & st0 & H & -> & -> & _).
  by apply setup_record in H as (_ & ? & ?).
Qed.

Lemma registry_follows_load_record_witness :
  run (Probe.with_units "spec.py" ["boom.py"; "extra.py"]) Probe.process
  = (Raise (UnitRaised "extra0"),
     Probe.final_state (Probe.with_units "spec.py" ["boom.py"; "extra.py"]) Probe.process)
  ∧ deref (heap (Probe.final_state (Probe.with_units "spec.py" ["boom.py"; "extra.py"])
                   Probe.process)) jinjautil.exports
    = <["early" := PInt 1]> (<["nodes" := PInt 3]> (proc_exports Probe.process)).
Proof.
  split; [vm_compute; reflexivity|].
  destruct (registry_follows_load_record
              (Probe.with_units "spec.py" ["boom.py"; "extra.py"]) Probe.process
              (Raise (UnitRaised "extra0"))
              (Probe.final_state (Probe.with_units "spec.py" ["boom.py"; "extra.py"])
                 Probe.process)) as [He _].
  - vm_compute; reflexivity.
  - rewrite He. vm_compute; reflexivity.
Defined.

(** ** Which runs get past the loading *)








(** X7.  The module names the driver passes to [load_module_from_file]
    in one run are pairwise different: no extra unit is named [spec],
    and two extra units have different numbers. *)
Theorem module_names_unique config : NoDup (expected_loads config).*1.
Proof.
  unfold expected_loads. simpl.
  assert (∀ start extras, NoDup (extra_loads start extras).*1
            ∧ ∀ name, name ∈ (extra_loads start extras).*1 →
                      ∃ num, (start ≤ num)%nat ∧ name = extra_name num) as Hextras.
  { intros start extras. revert start.
    induction extras as [|path extras IH]; intros start.
    - split; [constructor|]. intros name H. by apply elem_of_nil in H.
    - rewrite extra_loads_cons. simpl. destruct (IH (S start)) as [Hnd Hin]. split.
      + constructor; [|done]. intros H. apply Hin in H as (num & Hle & Heq).
        unfold extra_name in Heq. apply (inj (String.app "extra")) in Heq.
        apply (inj pretty) in Heq. lia.
      + intros name H. apply elem_of_cons in H as [->|H]; [by exists start|].
        apply Hin in H as (num & Hle & ->). exists num. split; [lia|done]. }
  destruct (Hextras 0 (extra config)) as [Hnd Hin].
  constructor; [|done]. intros H. apply Hin in H as (num & _ & Heq). done.
Qed.

(** ** Definitions *)

(** X8.  The three parts [partition] cuts a text into, put together
    again, are the text.  The first part holds no separator; the middle
    part is the separator or empty, and it is empty exactly when the
    text holds no separator, in which case the last part is empty too. *)
Theorem partition_parts sep s :
  (partition sep s).1.1 +:+ (partition sep s).1.2 +:+ (partition sep s).2 = s
  ∧ contains sep (partition sep s).1.1 = false
  ∧ (partition sep s).1.2 = (if contains sep s then String sep "" else "")
  ∧ (contains sep s = false → (partition sep s).2 = "").
Proof.
  induction s as [|c s (IH1 & IH2 & IH3 & IH4)]; [done|].
  simpl. destruct (decide (c = sep)) as [->|Hne].
  - rewrite bool_decide_eq_true_2 by done. simpl. by split_and!.
  - rewrite bool_decide_eq_false_2 by done.
    destruct (partition sep s) as [[h m] t]. simpl in *. split_and!.
    + change (String c (h +:+ m +:+ t) = String c s). by rewrite IH1.
    + by rewrite bool_decide_eq_false_2.
    + done.
    + done.
Qed.

Lemma partition_parts_witness :
  contains "="%char "NAME" = false ∧ (partition "="%char "NAME").2 = "".
Proof.
  split; [reflexivity|].
  destruct (partition_parts "="%char "NAME") as (_ & _ & _ & H).
  apply H. reflexivity.
Defined.

(** X9.  A definition without [=] and the same text followed by a bare
    [=] do the same: both bind the text to the empty string, so [-D X]
    and [-D X=] cannot be told apart. *)
Theorem bare_definition_is_empty_value env d st :
  contains "="%char d = false →
  apply_definition env (d +:+ "=") st = apply_definition env d st
  ∧ deref (heap (apply_definition env d st).2) (jinja2.globals env) !! d = Some (PStr "").
Proof.
  intros Hd. rewrite !apply_definition_eq. unfold definition_name, definition_value.
  change (d +:+ "=") with (d +:+ String "="%char "").
  rewrite (partition_first_sep _ _ _ Hd), (partition_no_sep _ _ Hd). simpl.
  split; [done|]. by rewrite deref_insert_eq, lookup_insert_eq.
Qed.

Lemma bare_definition_is_empty_value_witness :
  contains "="%char "DEBUG" = false
  ∧ apply_definition Sample.env "DEBUG=" (Sample.setup_state Sample.config)
    = apply_definition Sample.env "DEBUG" (Sample.setup_state Sample.config).
Proof.
  split; [reflexivity|].
  destruct (bare_definition_is_empty_value Sample.env "DEBUG"
              (Sample.setup_state Sample.config)) as [H _].
  - reflexivity.
  - exact H.
Defined.

Lemma last_definition_elem name defs v :
  last_definition name defs = Some v →
  ∃ d, d ∈ defs ∧ definition_name d = name ∧ definition_value d = v.
Proof.
  induction defs as [|d defs IH]; simpl; [done|].
  destruct (last_definition name defs) as [v'|].
  - intros [= ->]. destruct IH as (d' & Hin & Hn & Hv); [done|].
    exists d'. split; [by right|done].
  - destruct (decide (definition_name d = name)); [|done].
    intros [= <-]. exists d. split; [by left|done].
Qed.

Lemma last_definition_unique name defs d :
  NoDup (definition_name <$> defs) → d ∈ defs → definition_name d = name →
  last_definition name defs = Some (definition_value d).
Proof.
  induction defs as [|d0 defs IH]; simpl; intros Hnd Hin Hname.
  - by apply elem_of_nil in Hin.
  - apply NoDup_cons in Hnd as [Hnot Hnd].
    apply elem_of_cons in Hin as [->|Hin].
    + destruct (last_definition name defs) as [v|] eqn:Hlast.
      * apply last_definition_elem in Hlast as (d' & Hin' & Hn' & _).
        exfalso. apply Hnot. rewrite Hname, <- Hn'. by apply list_elem_of_fmap_2.
      * by destruct (decide (definition_name d0 = name)).
    + by rewrite IH.
Qed.

Lemma last_definition_perm name defs defs' :
  defs ≡ₚ defs' → NoDup (definition_name <$> defs) →
  last_definition name defs = last_definition name defs'.
Proof.
  intros Hperm Hnd.
  assert (NoDup (definition_name <$> defs')) as Hnd' by (by rewrite <- Hperm).
  destruct (last_definition name defs) as [v|] eqn:H1.
  - apply last_definition_elem in H1 as (d & Hin & Hn & <-).
    symmetry. apply last_definition_unique; [done| |done]. by rewrite <- Hperm.
  - destruct (last_definition name defs') as [v'|] eqn:H2; [|done].
    apply last_definition_elem in H2 as (d & Hin & Hn & <-).
    rewrite <- H1. apply last_definition_unique; [done| |done]. by rewrite Hperm.
Qed.

(** X10.  Definitions of pairwise different names can be given in any
    order: the loop over them leaves the same globals, and it never
    fails. *)
Theorem definitions_commute env defs defs' st :
  defs ≡ₚ defs' →
  NoDup (definition_name <$> defs) →
  (for_each defs (apply_definition env) st).1 = Ok tt
  ∧ (for_each defs' (apply_definition env) st).1 = Ok tt
  ∧ deref (heap (for_each defs (apply_definition env) st).2) (jinja2.globals env)
    = deref (heap (for_each defs' (apply_definition env) st).2) (jinja2.globals env).
Proof.
  intros Hperm Hnd.
  destruct (definitions_loop env defs st) as (st1 & -> & _ & _ & _ & _ & H1).
  destruct (definitions_loop env defs' st) as (st2 & -> & _ & _ & _ & _ & H2).
  split_and!; [done..|]. simpl. apply map_eq. intros name.
  by rewrite H1, H2, (last_definition_perm name defs defs').
Qed.

Lemma definitions_commute_witness :
  ["A=1"; "B=2"; "C"] ≡ₚ ["C"; "A=1"; "B=2"]
  ∧ deref (heap (for_each ["A=1"; "B=2"; "C"] (apply_definition Sample.env)
                   (Sample.setup_state Sample.config)).2) (jinja2.globals Sample.env)
    = deref (heap (for_each ["C"; "A=1"; "B=2"] (apply_definition Sample.env)
                     (Sample.setup_state Sample.config)).2) (jinja2.globals Sample.env).
Proof.
  assert (["A=1"; "B=2"; "C"] ≡ₚ ["C"; "A=1"; "B=2"]) as Hperm.
  { symmetry. apply (Permutation_cons_append ["A=1"; "B=2"] "C"). }
  split; [exact Hperm|].
  destruct (definitions_commute Sample.env ["A=1"; "B=2"; "C"] ["C"; "A=1"; "B=2"]
              (Sample.setup_state Sample.config) Hperm) as (_ & _ & H).
  - apply (bool_decide_unpack _). vm_compute. exact I.
  - exact H.
Defined.

(** ** The environment and the output *)

(** X11.  A registered filter takes the place of a default filter of
    jinja2 with the same name: the environment's filters are the
    registry's, as the units left them, and the defaults only for the
    names the registry does not bind. *)
Theorem registry_filter_shadows_default config p env st f :
  setup config p (init_state p) = (Ok env, st) →
  deref (heap st) (jinja2.filters env) !! f =
  match filters_after p (specfile config :: extra config) (proc_filters p) !! f with
  | Some v => Some v
  | None => DEFAULT_FILTERS p !! f
  end.
Proof.
  intros H. apply setup_ok in H as [].
  rewrite sp_env_filters0, sp_filters0, lookup_union.
  unfold unit_bodies, filters_after, body_of. rewrite foldl_fmap.
  by destruct (foldl _ _ _ !! f), (DEFAULT_FILTERS p !! f).
Qed.

Lemma registry_filter_shadows_default_witness :
  setup Sample.config Probe.process (init_state Probe.process)
  = (Ok Sample.env, Probe.setup_end Sample.config Probe.process)
  ∧ DEFAULT_FILTERS Probe.process !! "wrap" = Some (PFun Sample.trim)
  ∧ deref (heap (Probe.setup_end Sample.config Probe.process)) (jinja2.filters Sample.env)
      !! "wrap" = Some (PFun Sample.wrap).
Proof.
  split; [vm_compute; reflexivity|]. split; [vm_compute; reflexivity|].
  rewrite (registry_filter_shadows_default Sample.config Probe.process Sample.env
             (Probe.setup_end Sample.config Probe.process) "wrap").
  - vm_compute; reflexivity.
  - vm_compute; reflexivity.
Defined.

(** X12.  A run that succeeds went through every stage: all units were
    executed, the template was found and compiled, and the text on
    standard output is the text the rendering returned, whole and
    written once; the write changes nothing else. *)
Theorem successful_run_writes_rendered_text config p st :
  run config p = (Ok tt, st) →
  ∃ env st0 t,
    setup config p (init_state p) = (Ok env, st0)
    ∧ jinja2.get_template p env (templatefile config) st0 = (Ok t, st0)
    ∧ jinja2.render t st0 = (Ok (stdout st), st0)
    ∧ heap st = heap st0 ∧ sys_path st = sys_path st0
    ∧ loaded st = expected_loads config.
Proof.
  intros H.
  pose proof (run_state _ _ _ _ H) as (r0 & st1 & Hsetup1 & Hh & Hl & Hp & _).
  apply run_outcome in H as (env & st0 & t & Hsetup & Hget & Hrender).
  rewrite Hsetup in Hsetup1. inversion Hsetup1; subst r0 st1.
  exists env, st0, t. split_and!; try done.
  rewrite Hl. by apply setup_ok in Hsetup as [].
Qed.

Lemma successful_run_writes_rendered_text_witness :
  run Sample.config Sample.process = (Ok tt, Probe.final_state Sample.config Sample.process)
  ∧ ∃ t, jinja2.render t (Sample.setup_state Sample.config)
         = (Ok "A reg <4>
", Sample.setup_state Sample.config).
Proof.
  split; [vm_compute; reflexivity|].
  destruct (successful_run_writes_rendered_text Sample.config Sample.process
              (Probe.final_state Sample.config Sample.process))
    as (env & st0 & t & Hsetup & _ & Hrender & _).
  - vm_compute; reflexivity.
  - exists t.
    assert (st0 = Sample.setup_state Sample.config) as ->
      by (unfold Sample.setup_state; by rewrite Hsetup).
    exact Hrender.
Defined.

Lemma loader_after_setup_witness :
  setup Sample.config Sample.process (init_state Sample.process)
  = (Ok Sample.env, Sample.setup_state Sample.config)
  ∧ jinjautil.includedirs (jinja2.loader Sample.env)
    = proc_loader_dirs Sample.process ++ ["/tpl_a"; "/tpl_b"].
Proof.
  split; [vm_compute; reflexivity|].
  apply (loader_after_setup Sample.config Sample.process Sample.env
           (Sample.setup_state Sample.config)).
  vm_compute; reflexivity.
Defined.
